(** * setup-ansible.py: a shallow embedding and its properties

    The script bootstraps Ansible over one master and N workers: it makes
    sure an SSH key exists, copies it to every host, configures the hosts
    in a thread pool, writes [inventory.yml] and [ansible.cfg], checks that
    [ansible] is callable, and then runs a five-step verification.

    Everything the script does to the outside world (local processes, SSH
    sessions, file writes, log lines) is an [event]; the outside world
    answers through an [env] of oracles that may look at the whole history.
    The methods of [AnsibleSetup] and [AnsibleVerification] become
    computations in a state, writer and exception monad [M]. The two
    [setup_logging] methods only choose where log lines go; here a log
    line is an event with its level and message. *)

From Stdlib Require Import ZArith Ascii String.
From stdpp Require Import gmap strings list fin_maps pretty sorting.

#[local] Set Warnings "-register-all".
#[local] Open Scope Z_scope.

(** ** Python string helpers *)

Module PyStr.

(** The double quote character, for command lines that quote arguments. *)
Definition dq : string := String "034"%char EmptyString.

(** The newline character. *)
Definition nl : string := String "010"%char EmptyString.

(** [s.startswith(p)] *)
Definition startswith (p s : string) : bool := String.prefix p s.

(** [s[n:]]: the string without its first [n] characters, empty when
    [s] is shorter. *)
Fixpoint slice_from (n : nat) (s : string) : string :=
  match n, s with
  | O, _ => s
  | S _, EmptyString => EmptyString
  | S n', String _ s' => slice_from n' s'
  end.

(** Truth value of an [Optional[str]]: [None] and the empty string are
    false. *)
Definition truthy (o : option string) : bool :=
  match o with
  | Some s => negb (String.eqb s EmptyString)
  | None => false
  end.

(** The text an f-string puts in for an [Optional[str]] known to be
    truthy. *)
Definition text (o : option string) : string := default EmptyString o.

(** ASCII white space as [str.split] and [str.strip] see it. *)
Definition is_space (a : ascii) : bool :=
  let n := nat_of_ascii a in
  ((9 <=? n)%nat && (n <=? 13)%nat) || ((28 <=? n)%nat && (n <=? 32)%nat).

Fixpoint split_aux (cur : option string) (s : string) : list string :=
  match s with
  | EmptyString => match cur with Some w => [w] | None => [] end
  | String a s' =>
      if is_space a then
        match cur with
        | Some w => w :: split_aux None s'
        | None => split_aux None s'
        end
      else
        split_aux
          (Some (match cur with
                 | Some w => w +:+ String a EmptyString
                 | None => String a EmptyString
                 end)) s'
  end.

(** [s.split()] *)
Definition split (s : string) : list string := split_aux None s.

Fixpoint lstrip (s : string) : string :=
  match s with
  | EmptyString => EmptyString
  | String a s' => if is_space a then lstrip s' else s
  end.

Fixpoint rstrip (s : string) : string :=
  match s with
  | EmptyString => EmptyString
  | String a s' =>
      match rstrip s' with
      | EmptyString => if is_space a then EmptyString else String a EmptyString
      | r => String a r
      end
  end.

(** [s.strip()] *)
Definition strip (s : string) : string := rstrip (lstrip s).

End PyStr.

Import PyStr.

(** ** Data *)

(** The values [yaml.dump] is given: strings and nested dictionaries
    with string keys. *)
Inductive pyval :=
| PStr (s : string)
| PDict (d : gmap string pyval).

(** [d[k1][k2]...] on nested dictionaries. *)
Fixpoint get_path (p : list string) (v : pyval) : option pyval :=
  match p with
  | [] => Some v
  | k :: p' =>
      match v with
      | PDict d => match d !! k with Some v' => get_path p' v' | None => None end
      | PStr _ => None
      end
  end.

Inductive level := INFO | ERROR.

(** How [client.connect] authenticates. *)
Inductive auth :=
| KeyFile (path : string)
| Password (pw : string).

(** What [subprocess.run] is asked to start. *)
Inductive cmdline :=
| Shell (command : string)
| Argv (args : list string).

Inductive event :=
| EvProc (c : cmdline) (rc : Z)
| EvNotStarted (c : cmdline)
| EvConnect (host user : string) (a : auth) (ok : bool)
| EvExec (host command : string) (ok : bool)
| EvClose (host : string)
| EvWrite (path content : string) (ok : bool)
| EvLog (lvl : level) (msg : string)
| EvPrint (msg : string).

(** The local file system and everything that happened so far. *)
Record world := World {
  files : gmap string string;
  history : list event
}.

(** A finished local process, and the local files as it left them. *)
Record completed := Completed {
  returncode : Z;
  stdout : string;
  stderr : string;
  files_after : gmap string string
}.

Inductive spawned :=
| Started (p : completed)
| NotStarted (msg : string).

(** A remote command over an open SSH session: it ends with an exit
    status, or the session raises. *)
Inductive exec_outcome :=
| ExecExit (status : Z) (out err : string)
| ExecError (msg : string).

(** What [with open(path, 'w') as f:] and the write in its body come
    to. [open] raises and the file is as it was; or [open] creates or
    truncates the file and the write goes through; or the write (or the
    flush when the block is left) raises after [open] has truncated the
    file, and then the old content is gone and the file holds [got],
    what got through before the failure, often nothing. *)
Inductive write_outcome :=
| Written
| OpenFailed (msg : string)
| WriteFailed (msg : string) (got : string).

(** The outside world. Every oracle sees the world as it is when the
    call is made. [sh] is [subprocess.run(..., shell=True)]: the shell
    always starts and reports a missing program as an exit status.
    [execvp] is [subprocess.run(argv)], which raises when the program
    cannot be started. [ssh_connect] answers [None] on success and the
    text of the raised exception otherwise. [fs_write] says how the
    writing of a file ends. [finish_time] is when the i-th submitted
    future completes. *)
Record env := Env {
  home : string;
  sh : world -> string -> completed;
  execvp : world -> list string -> spawned;
  ssh_connect : world -> string -> string -> auth -> option string;
  ssh_exec : world -> string -> string -> exec_outcome;
  fs_write : world -> string -> string -> write_outcome;
  yaml_dump : pyval -> string;
  finish_time : world -> nat -> nat
}.

(** ** The monad: state (files), writer (events), exceptions *)

Inductive result (A : Type) :=
| Ret (a : A)
| Raise (msg : string).
Arguments Ret {A} a.
Arguments Raise {A} msg.

Record outcome (A : Type) := Outcome {
  value : result A;
  disk : gmap string string;
  emitted : list event
}.
Arguments Outcome {A} value disk emitted.
Arguments value {A} o.
Arguments disk {A} o.
Arguments emitted {A} o.

Definition M (A : Type) : Type := world -> outcome A.

(** The world once a computation started in [w] has finished. *)
Definition after {A} (w : world) (o : outcome A) : world :=
  World (disk o) (history w ++ emitted o).

Definition ret {A} (a : A) : M A :=
  fun w => Outcome (Ret a) (files w) [].

Definition raise {A} (msg : string) : M A :=
  fun w => Outcome (Raise msg) (files w) [].

Definition bind {A B} (m : M A) (f : A -> M B) : M B :=
  fun w =>
    match m w with
    | Outcome (Ret a) fs evs =>
        match f a (World fs (history w ++ evs)) with
        | Outcome v fs' evs' => Outcome v fs' (evs ++ evs')
        end
    | Outcome (Raise e) fs evs => Outcome (Raise e) fs evs
    end.

(** [try: m except Exception as e: h e] *)
Definition try_except {A} (m : M A) (h : string -> M A) : M A :=
  fun w =>
    match m w with
    | Outcome (Ret a) fs evs => Outcome (Ret a) fs evs
    | Outcome (Raise e) fs evs =>
        match h e (World fs (history w ++ evs)) with
        | Outcome v fs' evs' => Outcome v fs' (evs ++ evs')
        end
    end.

(** [try: m finally: cleanup], for a [cleanup] that does not raise. *)
Definition try_finally {A} (m : M A) (cleanup : M unit) : M A :=
  fun w =>
    match m w with
    | Outcome v fs evs =>
        match cleanup (World fs (history w ++ evs)) with
        | Outcome _ fs' evs' => Outcome v fs' (evs ++ evs')
        end
    end.

Definition emit (e : event) : M unit :=
  fun w => Outcome (Ret tt) (files w) [e].

Definition get_world : M world :=
  fun w => Outcome (Ret w) (files w) [].

Definition set_files (fs : gmap string string) : M unit :=
  fun _ => Outcome (Ret tt) fs [].

Notation "x <- m ;; k" := (bind m (fun x => k))
  (at level 100, m at next level, right associativity).
Notation "m ;;; k" := (bind m (fun _ => k))
  (at level 100, right associativity).

Definition log_info (msg : string) : M unit := emit (EvLog INFO msg).
Definition log_error (msg : string) : M unit := emit (EvLog ERROR msg).

(** [os.path.exists] *)
Definition path_exists (p : string) : M bool :=
  fun w => Outcome (Ret (bool_decide (is_Some (files w !! p)))) (files w) [].

Definition emit_all (evs : list event) : M unit :=
  fun w => Outcome (Ret tt) (files w) evs.

(** What [subprocess.run(..., check=True)] gives back once the process
    has ended: the caller's [(ok, output)] pair. *)
Definition completed_result (c : cmdline) (p : completed) : M (bool * string) :=
  emit (EvProc c (returncode p)) ;;;
  set_files (files_after p) ;;;
  if returncode p =? 0 then ret (true, stdout p)
  else ret (false, "Error: " +:+ stderr p).

(** [with open(path, 'w') as f:] and a write of [content] in its body.
    The exception of a failure leaves the file as [open] and the part
    of the write that got through made it. *)
Definition write_file (E : env) (path content : string) : M unit :=
  w <- get_world ;;
  match fs_write E w path content with
  | Written =>
      emit (EvWrite path content true) ;;;
      set_files (<[path := content]> (files w))
  | OpenFailed msg => emit (EvWrite path content false) ;;; raise msg
  | WriteFailed msg got =>
      emit (EvWrite path content false) ;;;
      set_files (<[path := got]> (files w)) ;;;
      raise msg
  end.

(** ** class AnsibleSetup *)

Record AnsibleSetup := {
  master_ip : string;
  worker_ips : list string;
  ssh_user : string;
  ssh_password : option string;
  ssh_key_path : string
}.

(** [__init__]: the key path is [Path.home() / ".ssh" / "id_rsa"]. *)
Definition AnsibleSetup_init (E : env) (master : string)
  (workers : list string) (user : string) (password : option string)
  : AnsibleSetup :=
  {| master_ip := master;
     worker_ips := workers;
     ssh_user := user;
     ssh_password := password;
     ssh_key_path := home E +:+ "/.ssh/id_rsa" |}.

(** The fixed provisioning list of [setup_node]. *)
Definition commands : list string :=
  [ "sudo apt-get update";
    "sudo apt-get install -y python3-pip sshpass";
    "pip3 install --user ansible";
    "echo " +:+ dq +:+ "export PATH=$PATH:$HOME/.local/bin" +:+ dq
      +:+ " >> ~/.bashrc";
    "source ~/.bashrc" ].

Definition host_entry (ip : string) : pyval :=
  PDict {[ "ansible_host" := PStr ip ]}.

(** [f'k8s-worker{i+1}'] *)
Definition worker_name (i : nat) : string :=
  "k8s-worker" +:+ pretty (i + 1)%nat.

(** [enumerate(l)] *)
Definition enumerate {A} (l : list A) : list (nat * A) := imap pair l.

(** The dict comprehension over [enumerate(self.worker_ips)]: entries
    are inserted in list order, a later one replacing an earlier one
    with the same key. *)
Definition worker_hosts (ips : list string) : gmap string pyval :=
  fold_left (fun d p => <[worker_name p.1 := host_entry p.2]> d)
    (enumerate ips) ∅.

Section Setup.

Variable E : env.
Variable self : AnsibleSetup.

Definition run_command (command : string) (shell : bool) : M (bool * string) :=
  w <- get_world ;;
  if shell then completed_result (Shell command) (sh E w command)
  else
    let argv := split command in
    match execvp E w argv with
    | Started p => completed_result (Argv argv) p
    | NotStarted msg => emit (EvNotStarted (Argv argv)) ;;; raise msg
    end.

Definition keygen_command : string :=
  "ssh-keygen -t rsa -b 4096 -f " +:+ ssh_key_path self +:+ " -N "
    +:+ dq +:+ dq.

Definition create_ssh_key : M bool :=
  present <- path_exists (ssh_key_path self) ;;
  if negb present then
    log_info "Generating new SSH key pair..." ;;;
    r <- run_command keygen_command true ;;
    if negb r.1 then
      log_error ("Failed to generate SSH key: " +:+ r.2) ;;; ret false
    else ret true
  else ret true.

(** Lines 74-75: the command line that is really sent. *)
Definition escalated (command : string) : string :=
  if startswith "sudo" command && truthy (ssh_password self) then
    "echo " +:+ text (ssh_password self) +:+ " | sudo -S "
      +:+ slice_from 5 command
  else command.

(** The client is known by the host it was made for. *)
Definition execute_remote_command (client command : string)
  : M (bool * string) :=
  let command := escalated command in
  w <- get_world ;;
  match ssh_exec E w client command with
  | ExecExit status out err =>
      emit (EvExec client command (status =? 0)) ;;;
      ret (status =? 0, if status =? 0 then out else err)
  | ExecError msg =>
      emit (EvExec client command false) ;;; ret (false, msg)
  end.

(** [client.connect(host, username=..., ...)] *)
Definition connect (host : string) (a : auth) : M unit :=
  w <- get_world ;;
  match ssh_connect E w host (ssh_user self) a with
  | None => emit (EvConnect host (ssh_user self) a true)
  | Some msg => emit (EvConnect host (ssh_user self) a false) ;;; raise msg
  end.

(** The [for cmd in commands] loop of [setup_node], with the
    [return True] that follows it. *)
Fixpoint run_commands (host : string) (cmds : list string) : M bool :=
  match cmds with
  | [] => ret true
  | cmd :: rest =>
      r <- execute_remote_command host cmd ;;
      if negb r.1 then
        log_error ("Failed to execute '" +:+ cmd +:+ "' on " +:+ host
                   +:+ ": " +:+ r.2) ;;;
        ret false
      else
        log_info ("Successfully executed '" +:+ cmd +:+ "' on " +:+ host) ;;;
        run_commands host rest
  end.

Definition setup_node (host : string) : M bool :=
  log_info ("Setting up node: " +:+ host) ;;;
  try_finally
    (try_except
       (connected <-
          try_except
            (connect host (KeyFile (ssh_key_path self)) ;;; ret true)
            (fun _ =>
               if truthy (ssh_password self) then
                 connect host (Password (text (ssh_password self))) ;;;
                 ret true
               else ret false) ;;
        if negb connected then
          log_error ("Could not connect to " +:+ host) ;;; ret false
        else run_commands host commands)
       (fun e =>
          log_error ("Error setting up " +:+ host +:+ ": " +:+ e) ;;;
          ret false))
    (emit (EvClose host)).

Definition inventory_data : pyval :=
  PDict {[ "all" := PDict {[
    "children" := PDict {[
      "k8s_cluster" := PDict {[
        "children" := PDict {[
          "master" := PDict {[
            "hosts" := PDict {[ "k8s-master" := host_entry (master_ip self) ]} ]};
          "workers" := PDict {[
            "hosts" := PDict (worker_hosts (worker_ips self)) ]} ]} ]} ]};
    "vars" := PDict {[
      "ansible_user" := PStr (ssh_user self);
      "ansible_ssh_private_key_file" := PStr (ssh_key_path self);
      "ansible_become" := PStr "yes" ]} ]} ]}.

Definition create_inventory_file : M bool :=
  try_except
    (write_file E "inventory.yml" (yaml_dump E inventory_data) ;;; ret true)
    (fun e =>
       log_error ("Failed to create inventory file: " +:+ e) ;;; ret false).

(** [self.ssh_password if self.ssh_password else ''] *)
Definition become_password : string :=
  if truthy (ssh_password self) then text (ssh_password self)
  else EmptyString.

Definition config_content : string :=
  "[defaults]" +:+ nl +:+
  "inventory = inventory.yml" +:+ nl +:+
  "host_key_checking = False" +:+ nl +:+
  "remote_user = " +:+ ssh_user self +:+ nl +:+
  "private_key_file = ~/.ssh/id_rsa" +:+ nl +:+
  nl +:+
  "[privilege_escalation]" +:+ nl +:+
  "become = True" +:+ nl +:+
  "become_method = sudo" +:+ nl +:+
  "become_user = root" +:+ nl +:+
  "become_ask_pass = False" +:+ nl +:+
  "ansible_become_password = " +:+ become_password +:+ nl.

Definition create_ansible_cfg : M bool :=
  try_except
    (write_file E "ansible.cfg" config_content ;;; ret true)
    (fun e =>
       log_error ("Failed to create ansible.cfg: " +:+ e) ;;; ret false).

Definition copy_id_command (host : string) : string :=
  "sshpass -p " +:+ text (ssh_password self) +:+ " ssh-copy-id -i "
    +:+ ssh_key_path self +:+ ".pub -o StrictHostKeyChecking=no "
    +:+ ssh_user self +:+ "@" +:+ host.

Definition distribute_ssh_key (host : string) : M bool :=
  try_except
    (if truthy (ssh_password self) then
       r <- run_command (copy_id_command host) true ;;
       if negb r.1 then
         log_error ("Failed to copy SSH key to " +:+ host +:+ ": " +:+ r.2) ;;;
         ret false
       else ret true
     else ret true)
    (fun e =>
       log_error ("Error distributing SSH key to " +:+ host +:+ ": " +:+ e) ;;;
       ret false).

Definition verify_ansible : M bool :=
  r <- run_command "ansible --version" false ;;
  if negb r.1 then
    log_error "Ansible is not properly installed" ;;; ret false
  else
    log_info "Ansible installation verified successfully" ;;; ret true.

(** [for host in all_hosts: if not self.distribute_ssh_key(host):
    return False], giving [true] when the loop runs to its end. *)
Fixpoint distribute_all (hosts : list string) : M bool :=
  match hosts with
  | [] => ret true
  | host :: rest =>
      ok <- distribute_ssh_key host ;;
      if negb ok then ret false else distribute_all rest
  end.

(** [executor.submit(self.setup_node, host) for host in all_hosts]: every
    worker has its own client and starts from the world as it is when
    the pool is entered. *)
Definition submit_all (hosts : list string) (w : world)
  : list (string * outcome bool) :=
  map (fun host => (host, setup_node host w)) hosts.

(** The i-th future is done no later than the j-th. *)
Definition done_before {A} (w : world) (a b : nat * A) : Prop :=
  (finish_time E w a.1 <= finish_time E w b.1)%nat.

#[local] Instance done_before_dec {A} (w : world)
  : RelDecision (@done_before A w).
Proof. intros a b. unfold done_before. apply _. Defined.

(** [as_completed]: the futures by completion time. *)
Definition as_completed {A} (w : world) (futures : list A) : list A :=
  (merge_sort (done_before w) (enumerate futures)).*2.

(** The [for future in as_completed(...)] loop. *)
Fixpoint collect (done : list (string * outcome bool)) : M bool :=
  match done with
  | [] => ret true
  | (host, o) :: rest =>
      match value o with
      | Ret true => collect rest
      | Ret false =>
          log_error ("Failed to setup node: " +:+ host) ;;; ret false
      | Raise e =>
          log_error ("Exception occurred while setting up " +:+ host
                     +:+ ": " +:+ e) ;;;
          ret false
      end
  end.

(** The [with ThreadPoolExecutor(max_workers=len(all_hosts))] block.
    The executor raises [ValueError] when [max_workers] is 0. Leaving
    the block waits for every worker, also after an early
    [return False], so all workers' events are part of the history; they
    are listed worker by worker in completion order, before the
    coordinator's own log line. *)
Definition setup_all (hosts : list string) : M bool :=
  if (length hosts =? 0)%nat then
    raise "max_workers must be greater than 0"
  else
    w <- get_world ;;
    let done := as_completed w (submit_all hosts w) in
    emit_all (concat (map (fun f => emitted f.2) done)) ;;;
    collect done.

Definition all_hosts : list string := master_ip self :: worker_ips self.

Definition run : M bool :=
  try_except
    (key <- create_ssh_key ;;
     if negb key then ret false else
     copied <- distribute_all all_hosts ;;
     if negb copied then ret false else
     configured <- setup_all all_hosts ;;
     if negb configured then ret false else
     inventory <- create_inventory_file ;;
     if negb inventory then ret false else
     cfg <- create_ansible_cfg ;;
     if negb cfg then ret false else
     verified <- verify_ansible ;;
     if negb verified then ret false else
     log_info "Ansible setup completed successfully!" ;;;
     ret true)
    (fun e => log_error ("Setup failed: " +:+ e) ;;; ret false).

End Setup.

(** ** class AnsibleVerification *)

Record AnsibleVerification := {
  inventory_path : string
}.

(** [AnsibleVerification()] with the default argument. *)
Definition AnsibleVerification_init : AnsibleVerification :=
  {| inventory_path := "inventory.yml" |}.

Definition installation_checks : list (string * string) :=
  [ ("ansible --version", "Checking Ansible installation");
    ("ansible-playbook --version", "Checking Ansible-playbook installation");
    ("ansible-galaxy --version", "Checking Ansible-galaxy installation") ].

Section Verification.

Variable E : env.
Variable self : AnsibleVerification.

Definition run_ansible_command (command : string) : M (bool * string) :=
  w <- get_world ;;
  completed_result (Shell command) (sh E w command).

(** The [for command, description in checks] loop of
    [verify_ansible_installation], with the [return True] after it. *)
Fixpoint run_checks (checks : list (string * string)) : M bool :=
  match checks with
  | [] => ret true
  | (command, description) :: rest =>
      log_info (nl +:+ "=== " +:+ description +:+ " ===") ;;;
      r <- run_ansible_command command ;;
      if negb r.1 then
        log_error (description +:+ " failed: " +:+ r.2) ;;; ret false
      else
        log_info (strip r.2) ;;; run_checks rest
  end.

Definition verify_ansible_installation : M bool :=
  run_checks installation_checks.

Definition verify_inventory : M bool :=
  log_info (nl +:+ "=== Checking Inventory File ===") ;;;
  present <- path_exists (inventory_path self) ;;
  if negb present then
    log_error ("Inventory file not found: " +:+ inventory_path self) ;;;
    ret false
  else
    r <- run_ansible_command
           ("ansible-inventory --list -i " +:+ inventory_path self) ;;
    if negb r.1 then
      log_error ("Inventory file verification failed: " +:+ r.2) ;;;
      ret false
    else
      log_info "Inventory file verification successful" ;;; ret true.

Definition test_connectivity : M bool :=
  log_info (nl +:+ "=== Testing Host Connectivity ===") ;;;
  r <- run_ansible_command
         ("ansible all -i " +:+ inventory_path self +:+ " -m ping") ;;
  if negb r.1 then
    log_error ("Host connectivity test failed: " +:+ r.2) ;;; ret false
  else
    log_info "All host connectivity tests successful" ;;; ret true.

Definition verify_sudo_access : M bool :=
  log_info (nl +:+ "=== Verifying Sudo Permissions ===") ;;;
  r <- run_ansible_command
         ("ansible all -i " +:+ inventory_path self +:+ " -m shell -a "
          +:+ dq +:+ "sudo -n true" +:+ dq +:+ " -b") ;;
  if negb r.1 then
    log_error ("Sudo permission verification failed: " +:+ r.2) ;;;
    ret false
  else
    log_info "Sudo permission verification successful" ;;; ret true.

Definition verify_python : M bool :=
  log_info (nl +:+ "=== Python 설치 확인 ===") ;;;
  r <- run_ansible_command
         ("ansible all -i " +:+ inventory_path self
          +:+ " -m shell -a 'python3 --version'") ;;
  if negb r.1 then
    log_error ("Python 설치 확인 실패: " +:+ r.2) ;;; ret false
  else
    log_info (strip r.2) ;;; ret true.

(** The [for check_func, description in checks] loop of
    [run_verification], with the [return all_passed] after it. *)
Fixpoint run_all (checks : list (M bool * string)) (all_passed : bool)
  : M bool :=
  match checks with
  | [] => ret all_passed
  | (check_func, description) :: rest =>
      log_info (nl +:+ "Executing: " +:+ description) ;;;
      ok <- check_func ;;
      if negb ok then
        log_error (description +:+ " failed") ;;; run_all rest false
      else
        log_info (description +:+ " successful") ;;; run_all rest all_passed
  end.

Definition verification_checks : list (M bool * string) :=
  [ (verify_ansible_installation, "Ansible Installation Verification");
    (verify_inventory, "Inventory Verification");
    (test_connectivity, "Connectivity Test");
    (verify_sudo_access, "Sudo Permission Verification");
    (verify_python, "Python Installation Verification") ].

Definition run_verification : M bool :=
  run_all verification_checks true.

End Verification.

(** ** The script *)

Definition banner_ok : string :=
  nl +:+ "✅ Ansible installation and configuration is successful.".

Definition banner_issues : string :=
  nl +:+ "❌ There are issues with Ansible installation or configuration. Please check the logs.".

Definition verify_setup (E : env) : M unit :=
  ok <- run_verification E AnsibleVerification_init ;;
  if ok then emit (EvPrint banner_ok) else emit (EvPrint banner_issues).

(** The parsed command line. *)
Record Args := {
  arg_master : string;
  arg_workers : list string;
  arg_user : string;
  arg_password : option string
}.

(** [main] gives the status [sys.exit] is called with, or 0 when it
    returns. *)
Definition main (E : env) (args : Args) : M Z :=
  let setup :=
    AnsibleSetup_init E (arg_master args) (arg_workers args)
      (arg_user args) (arg_password args) in
  ok <- run E setup ;;
  if negb ok then ret 1
  else verify_setup E ;;; ret 0.

(** The exit code of the process: an exception that nobody catches ends
    it with status 1. *)
Definition exit_code (o : outcome Z) : Z :=
  match value o with
  | Ret code => code
  | Raise _ => 1
  end.

(** ** Reading a trace *)

(** The local command lines that were handed to [subprocess.run]. *)
Definition started (evs : list event) : list cmdline :=
  omap (fun e =>
          match e with
          | EvProc c _ | EvNotStarted c => Some c
          | _ => None
          end) evs.

(** The remote commands sent to [host], each with its success flag. *)
Definition execs (host : string) (evs : list event) : list (string * bool) :=
  omap (fun e =>
          match e with
          | EvExec h c ok => if String.eqb h host then Some (c, ok) else None
          | _ => None
          end) evs.

(** The steps [run_verification] announced: the [d] of every
    ["\nExecuting: d"] line at level INFO. *)
Definition announced (evs : list event) : list string :=
  omap (fun e =>
          match e with
          | EvLog INFO msg =>
              if startswith (nl +:+ "Executing: ") msg
              then Some (slice_from 12 msg) else None
          | _ => None
          end) evs.

(** The banners [verify_setup] printed. *)
Definition printed (evs : list event) : list string :=
  omap (fun e => match e with EvPrint msg => Some msg | _ => None end) evs.

(** The messages logged at level ERROR. *)
Definition errors (evs : list event) : list string :=
  omap (fun e => match e with EvLog ERROR msg => Some msg | _ => None end) evs.

(** ** Reading an outcome *)

(** The computation returned true. *)
Definition passed (o : outcome bool) : bool :=
  match value o with
  | Ret true => true
  | _ => false
  end.

(** The computation returned false or raised. *)
Definition failed (o : outcome bool) : Prop := value o <> Ret true.

(** A check is calm when it returns a verdict (it never raises) and
    logs no line that reads like the announcement of a step. *)
Definition calm (f : M bool) : Prop :=
  forall w, (exists b, value (f w) = Ret b) /\ announced (emitted (f w)) = [].

(** ** What the verifier is meant to do

    Every check of the list is called, in list order, whatever the
    checks before it returned; the verdicts are collected. This is the
    reading of [run_verification] that the loop is compared with. *)
Fixpoint spec_run_every_check (checks : list (M bool * string))
  : M (list bool) :=
  match checks with
  | [] => ret []
  | (check_func, description) :: rest =>
      log_info (nl +:+ "Executing: " +:+ description) ;;;
      ok <- check_func ;;
      (if ok then log_info (description +:+ " successful")
       else log_error (description +:+ " failed")) ;;;
      oks <- spec_run_every_check rest ;;
      ret (ok :: oks)
  end.

(** [f] applied to the value a computation returns. *)
Definition map_value {A B} (f : A -> B) (o : outcome A) : outcome B :=
  match o with
  | Outcome (Ret a) fs evs => Outcome (Ret (f a)) fs evs
  | Outcome (Raise e) fs evs => Outcome (Raise e) fs evs
  end.

(** ** Example environments *)

(** A machine with nothing on it yet. *)
Definition empty_world : world := World ∅ [].

(** What a successful [ssh-keygen -f /home/ubuntu/.ssh/id_rsa] leaves
    on the disk. *)
Definition with_key_pair (fs : gmap string string) : gmap string string :=
  <["/home/ubuntu/.ssh/id_rsa" := "PRIVATE KEY"]>
    (<["/home/ubuntu/.ssh/id_rsa.pub" := "PUBLIC KEY"]> fs).

(** Every local command succeeds ([ssh-keygen] writes the key pair),
    every host accepts the key and runs every command, every file can be
    written, and futures complete in the order they were submitted. *)
Definition env_ok : env :=
  {| home := "/home/ubuntu";
     sh := fun w command =>
       Completed 0 "ok" EmptyString
         (if startswith "ssh-keygen" command then with_key_pair (files w)
          else files w);
     execvp := fun w _ =>
       Started (Completed 0 "ansible 2.9.6" EmptyString (files w));
     ssh_connect := fun _ _ _ _ => None;
     ssh_exec := fun _ _ _ => ExecExit 0 EmptyString EmptyString;
     fs_write := fun _ _ _ => Written;
     yaml_dump := fun _ => "all: ...";
     finish_time := fun _ i => i |}.

(** A control machine without the tools: the shell reports status 127
    for every command and no program can be started. *)
Definition env_no_tools : env :=
  {| home := home env_ok;
     sh := fun w _ => Completed 127 EmptyString "command not found" (files w);
     execvp := fun _ _ => NotStarted "[Errno 2] No such file or directory";
     ssh_connect := ssh_connect env_ok;
     ssh_exec := ssh_exec env_ok;
     fs_write := fs_write env_ok;
     yaml_dump := yaml_dump env_ok;
     finish_time := finish_time env_ok |}.

(** The local side works, but the hosts refuse every login, by key and
    by password. *)
Definition env_unreachable : env :=
  {| home := home env_ok;
     sh := sh env_ok;
     execvp := execvp env_ok;
     ssh_connect := fun _ _ _ _ => Some "Authentication failed.";
     ssh_exec := ssh_exec env_ok;
     fs_write := fs_write env_ok;
     yaml_dump := yaml_dump env_ok;
     finish_time := finish_time env_ok |}.

(** The hosts accept the key but cannot install packages: the second
    provisioning command ends with status 100. *)
Definition env_install_fails : env :=
  {| home := home env_ok;
     sh := sh env_ok;
     execvp := execvp env_ok;
     ssh_connect := ssh_connect env_ok;
     ssh_exec := fun _ _ command =>
       if String.eqb command "sudo apt-get install -y python3-pip sshpass"
       then ExecExit 100 EmptyString "E: Unable to locate package sshpass"
       else ExecExit 0 EmptyString EmptyString;
     fs_write := fs_write env_ok;
     yaml_dump := yaml_dump env_ok;
     finish_time := finish_time env_ok |}.

(** One master and two workers, as [--master 10.0.0.1 --workers 10.0.0.2
    10.0.0.3 --user ubuntu], with or without [--password]. *)
Definition example_args (password : option string) : Args :=
  {| arg_master := "10.0.0.1";
     arg_workers := ["10.0.0.2"; "10.0.0.3"];
     arg_user := "ubuntu";
     arg_password := password |}.

Definition example_setup (password : option string) : AnsibleSetup :=
  AnsibleSetup_init env_ok "10.0.0.1" ["10.0.0.2"; "10.0.0.3"] "ubuntu"
    password.

(** A control machine that already has its key pair. *)
Definition world_with_key : world := World (with_key_pair ∅) [].

(** ** More readings of a trace *)

(** The local processes that ran to their end, each with its exit
    status. *)
Definition procs (evs : list event) : list (cmdline * Z) :=
  omap (fun e => match e with EvProc c rc => Some (c, rc) | _ => None end) evs.

(** The files the script tried to write: path, content, success. *)
Definition writes (evs : list event) : list (string * string * bool) :=
  omap (fun e =>
          match e with
          | EvWrite path content ok => Some (path, content, ok)
          | _ => None
          end) evs.

(** An event of the SSH session with [host], or a log line. *)
Definition about_host (host : string) (e : event) : bool :=
  match e with
  | EvConnect h _ _ _ | EvExec h _ _ | EvClose h => String.eqb h host
  | EvLog _ _ => true
  | _ => false
  end.

(** A command that a shell ran to its end, or a log line. *)
Definition shell_only (e : event) : bool :=
  match e with
  | EvProc (Shell _) _ | EvLog _ _ => true
  | _ => false
  end.

(** The attempt to write a file, or a log line. *)
Definition file_only (e : event) : bool :=
  match e with
  | EvWrite _ _ _ | EvLog _ _ => true
  | _ => false
  end.

(** [f] vouches for the commands [cmds]: it never raises, it only runs
    shell commands and logs, no more commands than the list has, and it
    returns true exactly when it ran every command of the list, in
    order, and each one ended with status 0. *)
Definition certifies (f : M bool) (cmds : list string) : Prop :=
  forall w,
    (exists b, value (f w) = Ret b) /\
    forallb shell_only (emitted (f w)) = true /\
    (length (procs (emitted (f w))) <= length cmds)%nat /\
    (value (f w) = Ret true <->
     procs (emitted (f w)) = (fun c => (Shell c, 0)) <$> cmds).


(** ** More example environments *)

(** The hosts are fine but [ansible] is not installed on the control
    machine: the shell commands work, the program itself cannot be
    started. *)
Definition env_no_ansible : env :=
  {| home := home env_ok;
     sh := sh env_ok;
     execvp := fun _ _ =>
       NotStarted "[Errno 2] No such file or directory: 'ansible'";
     ssh_connect := ssh_connect env_ok;
     ssh_exec := ssh_exec env_ok;
     fs_write := fs_write env_ok;
     yaml_dump := yaml_dump env_ok;
     finish_time := finish_time env_ok |}.



(** The disk is full: files can be opened, and so truncated, but
    nothing can be written to them. *)
Definition env_disk_full : env :=
  {| home := home env_ok;
     sh := sh env_ok;
     execvp := execvp env_ok;
     ssh_connect := ssh_connect env_ok;
     ssh_exec := ssh_exec env_ok;
     fs_write := fun _ _ _ =>
       WriteFailed "[Errno 28] No space left on device" EmptyString;
     yaml_dump := yaml_dump env_ok;
     finish_time := finish_time env_ok |}.

(** The hosts refuse the key and accept the password. *)
Definition env_password_only : env :=
  {| home := home env_ok;
     sh := sh env_ok;
     execvp := execvp env_ok;
     ssh_connect := fun _ _ _ a =>
       match a with
       | KeyFile _ => Some "Authentication failed."
       | Password _ => None
       end;
     ssh_exec := ssh_exec env_ok;
     fs_write := fs_write env_ok;
     yaml_dump := yaml_dump env_ok;
     finish_time := finish_time env_ok |}.

(** * Properties *)

(** ** The model at work *)

Example split_ansible_version :
  split "ansible --version" = ["ansible"; "--version"].
Proof. reflexivity. Qed.

Example strip_output : strip (" ansible 2.9.6 " +:+ nl) = "ansible 2.9.6".
Proof. reflexivity. Qed.

Example worker_name_first : worker_name 0 = "k8s-worker1".
Proof. reflexivity. Qed.

Example escalated_apt_get_update :
  escalated (example_setup (Some "pw")) "sudo apt-get update"
  = "echo pw | sudo -S apt-get update".
Proof. reflexivity. Qed.

(** When everything works the script configures the three hosts, writes
    both files, passes the verification and ends with status 0. *)
Example main_all_ok :
  let o := main env_ok (example_args None) empty_world in
  exit_code o = 0 /\
  printed (emitted o) = [banner_ok] /\
  errors (emitted o) = [] /\
  dom (disk o)
  = {[ "/home/ubuntu/.ssh/id_rsa"; "/home/ubuntu/.ssh/id_rsa.pub";
       "inventory.yml"; "ansible.cfg" ]}.
Proof. by vm_compute. Qed.

(** The second call of [create_ssh_key] finds the key the first one
    made and does nothing. *)
Example create_ssh_key_twice :
  let first := create_ssh_key env_ok (example_setup None) empty_world in
  let second :=
    create_ssh_key env_ok (example_setup None) (after empty_world first) in
  length (started (emitted first)) = 1%nat /\
  emitted second = [] /\
  disk second = disk first.
Proof. by vm_compute. Qed.

(** ** The monad *)

Lemma map_value_emitted {A B} (f : A -> B) (o : outcome A) :
  emitted (map_value f o) = emitted o.
Proof. by destruct o as [[a|e] fs evs]. Qed.

Lemma map_value_disk {A B} (f : A -> B) (o : outcome A) :
  disk (map_value f o) = disk o.
Proof. by destruct o as [[a|e] fs evs]. Qed.

(** ** The primitives, one call at a time *)

Lemma completed_result_eq c p w :
  completed_result c p w =
  Outcome (Ret (returncode p =? 0,
                if returncode p =? 0 then stdout p
                else "Error: " +:+ stderr p))
    (files_after p) [EvProc c (returncode p)].
Proof.
  unfold completed_result, bind, emit, set_files, ret. simpl.
  by destruct (returncode p =? 0).
Qed.

Lemma run_ansible_command_eq E c w :
  run_ansible_command E c w = completed_result (Shell c) (sh E w c) w.
Proof.
  unfold run_ansible_command, bind, get_world. simpl.
  rewrite app_nil_r. destruct w as [fs h]; simpl.
  rewrite !completed_result_eq. done.
Qed.

Lemma run_command_shell_eq E c w :
  run_command E c true w = completed_result (Shell c) (sh E w c) w.
Proof.
  unfold run_command, bind, get_world. simpl.
  rewrite app_nil_r. destruct w as [fs h]; simpl.
  rewrite !completed_result_eq. done.
Qed.

Lemma run_command_argv_eq E c w :
  run_command E c false w =
  match execvp E w (split c) with
  | Started p => completed_result (Argv (split c)) p w
  | NotStarted msg => Outcome (Raise msg) (files w) [EvNotStarted (Argv (split c))]
  end.
Proof.
  unfold run_command, bind, get_world. simpl.
  rewrite app_nil_r. destruct w as [fs h]; simpl.
  destruct (execvp E _ _) as [p|msg].
  - rewrite !completed_result_eq. done.
  - done.
Qed.

Lemma execute_remote_command_eq E self host c w :
  execute_remote_command E self host c w =
  match ssh_exec E w host (escalated self c) with
  | ExecExit status out err =>
      Outcome (Ret (status =? 0, if status =? 0 then out else err))
        (files w) [EvExec host (escalated self c) (status =? 0)]
  | ExecError msg =>
      Outcome (Ret (false, msg)) (files w) [EvExec host (escalated self c) false]
  end.
Proof.
  unfold execute_remote_command, bind, get_world, emit, ret. simpl.
  rewrite app_nil_r. destruct w as [fs h]; simpl.
  by destruct (ssh_exec E _ _ _).
Qed.

Lemma connect_eq E self host a w :
  connect E self host a w =
  match ssh_connect E w host (ssh_user self) a with
  | None => Outcome (Ret tt) (files w) [EvConnect host (ssh_user self) a true]
  | Some msg =>
      Outcome (Raise msg) (files w) [EvConnect host (ssh_user self) a false]
  end.
Proof.
  unfold connect, bind, get_world, emit, raise. simpl.
  rewrite app_nil_r. destruct w as [fs h]; simpl.
  by destruct (ssh_connect E _ _ _ _).
Qed.

Lemma write_file_eq E path content w :
  write_file E path content w =
  match fs_write E w path content with
  | Written =>
      Outcome (Ret tt) (<[path := content]> (files w))
        [EvWrite path content true]
  | OpenFailed msg =>
      Outcome (Raise msg) (files w) [EvWrite path content false]
  | WriteFailed msg got =>
      Outcome (Raise msg) (<[path := got]> (files w))
        [EvWrite path content false]
  end.
Proof.
  unfold write_file, bind, get_world, emit, raise, set_files. simpl.
  rewrite app_nil_r. destruct w as [fs h]; simpl.
  by destruct (fs_write E _ _ _).
Qed.

(** ** Traces *)

Lemma execs_app host evs evs' :
  execs host (evs ++ evs') = execs host evs ++ execs host evs'.
Proof. apply omap_app. Qed.

Lemma announced_app evs evs' :
  announced (evs ++ evs') = announced evs ++ announced evs'.
Proof. apply omap_app. Qed.

Lemma in_started c rc evs : In (EvProc c rc) evs -> c ∈ started evs.
Proof.
  intros Hin. apply list_elem_of_In in Hin. unfold started.
  apply list_elem_of_omap. by exists (EvProc c rc).
Qed.

(** ** The installation step of the verifier *)

Lemma run_checks_cons E c d rest w :
  exists p,
    (returncode p <> 0 /\
     run_checks E ((c, d) :: rest) w =
     Outcome (Ret false) (files_after p)
       [ EvLog INFO (nl +:+ "=== " +:+ d +:+ " ===");
         EvProc (Shell c) (returncode p);
         EvLog ERROR (d +:+ " failed: " +:+ "Error: " +:+ stderr p) ])
    \/ (returncode p = 0 /\ exists w',
        run_checks E ((c, d) :: rest) w =
        Outcome (value (run_checks E rest w')) (disk (run_checks E rest w'))
          (EvLog INFO (nl +:+ "=== " +:+ d +:+ " ===")
           :: EvProc (Shell c) 0
           :: EvLog INFO (strip (stdout p))
           :: emitted (run_checks E rest w'))).
Proof.
  cbn [run_checks]. unfold bind, log_info, log_error, emit, ret.
  rewrite run_ansible_command_eq, completed_result_eq. simpl.
  match goal with
  | |- context [sh E ?w' c] => exists (sh E w' c); set (p := sh E w' c)
  end.
  destruct (returncode p =? 0) eqn:Hrc; simpl.
  - right. apply Z.eqb_eq in Hrc. split; [done|]. rewrite Hrc.
    match goal with
    | |- context [run_checks E rest ?w'] =>
        exists w'; by destruct (run_checks E rest w')
    end.
  - left. apply Z.eqb_neq in Hrc. done.
Qed.

Lemma run_checks_started E checks w :
  exists k,
    started (emitted (run_checks E checks w)) = take k (Shell ∘ fst <$> checks).
Proof.
  revert w. induction checks as [|[c d] rest IH]; intros w.
  - by exists 0%nat.
  - destruct (run_checks_cons E c d rest w) as (p & [[Hrc ->] | [Hrc (w' & ->)]]).
    + by exists 1%nat.
    + destruct (IH w') as [k Hk]. exists (S k). simpl. by rewrite Hk.
Qed.

(** C10. In the installation step of the verifier the three version
    checks are fail-fast: when the check of the core binary
    ([ansible --version]) fails, the step returns false at once and
    neither the playbook-runner check nor the content-manager check is
    run: the only command started is [ansible --version]. *)
Theorem verify_ansible_installation_fail_fast E w rc :
  In (EvProc (Shell "ansible --version") rc)
     (emitted (verify_ansible_installation E w)) ->
  rc <> 0 ->
  value (verify_ansible_installation E w) = Ret false /\
  started (emitted (verify_ansible_installation E w))
    = [Shell "ansible --version"].
Proof.
  intros Hin Hrc. unfold verify_ansible_installation, installation_checks in *.
  destruct (run_checks_cons E "ansible --version"
              "Checking Ansible installation"
              [("ansible-playbook --version",
                "Checking Ansible-playbook installation");
               ("ansible-galaxy --version",
                "Checking Ansible-galaxy installation")] w)
    as (p & [[Hp Heq] | [Hp (w' & Heq)]]); rewrite Heq in *; clear Heq.
  - done.
  - exfalso. cbn [emitted In] in Hin.
    destruct Hin as [Hin | [Hin | [Hin | Hin]]]; try discriminate.
    + injection Hin as <-. done.
    + apply in_started in Hin.
      destruct (run_checks_started E
                  [("ansible-playbook --version",
                    "Checking Ansible-playbook installation");
                   ("ansible-galaxy --version",
                    "Checking Ansible-galaxy installation")] w') as [k Hk].
      rewrite Hk in Hin. apply elem_of_take in Hin.
      destruct Hin as (i & Hi & _).
      destruct i as [|[|[|i]]]; simpl in Hi; discriminate.
Qed.

Lemma verify_ansible_installation_fail_fast_witness :
  In (EvProc (Shell "ansible --version") 127)
     (emitted (verify_ansible_installation env_no_tools empty_world)) /\
  value (verify_ansible_installation env_no_tools empty_world) = Ret false /\
  started (emitted (verify_ansible_installation env_no_tools empty_world))
    = [Shell "ansible --version"].
Proof.
  split; [vm_compute; right; left; reflexivity|].
  apply (verify_ansible_installation_fail_fast env_no_tools empty_world 127).
  - vm_compute. right. left. reflexivity.
  - discriminate.
Defined.

(** ** The five steps of the verifier *)

Lemma lstrip_head s :
  lstrip s = EmptyString \/
  exists a s', lstrip s = String a s' /\ is_space a = false.
Proof.
  induction s as [|a s IH]; simpl; [by left|].
  destruct (is_space a) eqn:Ha; [done|]. right. eauto.
Qed.

Lemma rstrip_head a s :
  is_space a = false -> exists r, rstrip (String a s) = String a r.
Proof. intros Ha. simpl. rewrite Ha. destruct (rstrip s); eauto. Qed.

Lemma prefix_cons a p b s :
  String.prefix (String a p) (String b s)
  = if ascii_dec a b then String.prefix p s else false.
Proof. done. Qed.

Lemma startswith_append p s : startswith p (p +:+ s) = true.
Proof.
  unfold startswith. induction p as [|a p IH]; [by destruct s|].
  change (String a p +:+ s) with (String a (p +:+ s)).
  rewrite prefix_cons. by destruct (ascii_dec a a).
Qed.

Lemma slice_from_append p s : slice_from (String.length p) (p +:+ s) = s.
Proof. induction p as [|a p IH]; [done|]. apply IH. Qed.

(** What [strip] returns does not begin with a newline. *)
Lemma strip_no_newline s p : startswith (nl +:+ p) (strip s) = false.
Proof.
  unfold strip. destruct (lstrip_head s) as [-> | (a & s' & -> & Ha)]; [done|].
  destruct (rstrip_head a s' Ha) as [r ->].
  unfold startswith.
  change (nl +:+ p) with (String "010"%char p). rewrite prefix_cons.
  destruct (ascii_dec _ a) as [<-|]; [|done].
  by vm_compute in Ha.
Qed.

Lemma announced_cons e evs :
  announced (e :: evs) = announced [e] ++ announced evs.
Proof. apply (announced_app [e]). Qed.

Lemma announced_info msg :
  announced [EvLog INFO msg]
  = if startswith (nl +:+ "Executing: ") msg then [slice_from 12 msg] else [].
Proof. unfold announced. cbn [omap list_omap]. by destruct (startswith _ _). Qed.

Lemma announced_strip out : announced [EvLog INFO (strip out)] = [].
Proof. by rewrite announced_info, strip_no_newline. Qed.

Lemma run_checks_calm E checks : calm (run_checks E checks).
Proof.
  intros w. revert w. induction checks as [|[c d] rest IH]; intros w.
  - split; [by exists true|done].
  - destruct (run_checks_cons E c d rest w) as (p & [[Hrc ->] | [Hrc (w' & ->)]]).
    + split; [by exists false|done].
    + destruct (IH w') as [Hv Ha]. split; [done|]. cbn [emitted].
      rewrite (announced_cons _ (_ :: _ :: emitted _)),
        (announced_cons _ (_ :: emitted _)), (announced_cons _ (emitted _)).
      rewrite Ha, announced_strip. done.
Qed.

Lemma verify_ansible_installation_calm E : calm (verify_ansible_installation E).
Proof. apply run_checks_calm. Qed.

Lemma verify_inventory_calm E self : calm (verify_inventory E self).
Proof.
  intros w. unfold verify_inventory, bind, log_info, log_error, emit, ret,
    path_exists. simpl.
  destruct (bool_decide _); simpl; [|split; [by exists false|done]].
  rewrite run_ansible_command_eq, completed_result_eq. simpl.
  destruct (returncode _ =? 0); simpl; split; eauto.
Qed.

(** The three probes have one shape: a header, one command, one line
    for its result. *)
Ltac probe_is_calm probe :=
  intros w; unfold probe, bind, log_info, log_error, emit, ret; simpl;
  rewrite run_ansible_command_eq, completed_result_eq; simpl;
  destruct (returncode _ =? 0); simpl; split;
  eauto using announced_strip.

Lemma test_connectivity_calm E self : calm (test_connectivity E self).
Proof. probe_is_calm test_connectivity. Qed.

Lemma verify_sudo_access_calm E self : calm (verify_sudo_access E self).
Proof. probe_is_calm verify_sudo_access. Qed.

Lemma verify_python_calm E self : calm (verify_python E self).
Proof. probe_is_calm verify_python. Qed.

(** The loop of [run_verification] is the reference reading followed by
    an AND over the verdicts. *)
Lemma run_all_spec checks acc w :
  run_all checks acc w =
  map_value (fun oks => acc && forallb id oks) (spec_run_every_check checks w).
Proof.
  revert acc w. induction checks as [|[f d] rest IH]; intros acc w.
  - simpl. unfold ret. simpl. by rewrite andb_true_r.
  - cbn [run_all spec_run_every_check].
    unfold bind, log_info, log_error, emit, ret. simpl.
    destruct (f _) as [[[|]|e] fs evs]; simpl; [| |done].
    + rewrite IH.
      destruct (spec_run_every_check rest _) as [[oks|e] fs' evs']; simpl;
        by rewrite ?app_nil_r.
    + rewrite IH.
      destruct (spec_run_every_check rest _) as [[oks|e] fs' evs']; simpl;
        by rewrite ?app_nil_r, ?andb_false_r.
Qed.

(** With calm checks the reference reading announces every step of the
    list, in order, and returns one verdict per step. *)
Lemma spec_run_every_check_calm checks w :
  Forall (fun c =>
            calm c.1 /\
            startswith (nl +:+ "Executing: ") (c.2 +:+ " successful") = false)
         checks ->
  announced (emitted (spec_run_every_check checks w)) = checks.*2 /\
  exists oks, value (spec_run_every_check checks w) = Ret oks /\
              length oks = length checks.
Proof.
  intros Hall. revert w. induction Hall as [|[f d] rest [Hf Hd] _ IH]; intros w.
  - split; [done|by exists []].
  - cbn [fst snd] in Hf, Hd. cbn [spec_run_every_check].
    unfold bind, log_info, log_error, emit, ret. cbn -[announced startswith].
    match goal with |- context [f ?w'] => destruct (Hf w') as [[b Hb] Ha] end.
    destruct (f _) as [v fs evs]. simpl in Hb, Ha. subst v.
    destruct b; cbn -[announced startswith];
      match goal with
      | |- context [spec_run_every_check rest ?w'] =>
          destruct (IH w') as (Hr & oks & Hoks & Hlen);
          destruct (spec_run_every_check rest w') as [v' fs' evs']
      end; simpl in Hr, Hoks; subst v'; cbn -[announced startswith];
      rewrite app_nil_r.
    + split; [|exists (true :: oks); simpl; by rewrite Hlen].
      rewrite (announced_cons _ (evs ++ _)), announced_app, Ha.
      rewrite (announced_cons _ evs'), Hr, !announced_info.
      change (nl +:+ "Executing: " +:+ d)
        with ((nl +:+ "Executing: ") +:+ d) in Hd |- *.
      rewrite Hd, startswith_append.
      change 12%nat with (String.length (nl +:+ "Executing: ")).
      by rewrite slice_from_append.
    + split; [|exists (false :: oks); simpl; by rewrite Hlen].
      rewrite (announced_cons _ (evs ++ _)), announced_app, Ha.
      rewrite (announced_cons _ evs'), Hr, !announced_info.
      change (nl +:+ "Executing: " +:+ d) with ((nl +:+ "Executing: ") +:+ d).
      rewrite startswith_append.
      change 12%nat with (String.length (nl +:+ "Executing: ")).
      by rewrite slice_from_append.
Qed.

Lemma verification_checks_calm E self :
  Forall (fun c =>
            calm c.1 /\
            startswith (nl +:+ "Executing: ") (c.2 +:+ " successful") = false)
         (verification_checks E self).
Proof.
  unfold verification_checks.
  repeat (apply List.Forall_cons; [split; [cbn [fst]|reflexivity]|]);
    [..|apply List.Forall_nil].
  - apply verify_ansible_installation_calm.
  - apply verify_inventory_calm.
  - apply test_connectivity_calm.
  - apply verify_sudo_access_calm.
  - apply verify_python_calm.
Qed.

(** C7. The five verification steps (installation version checks,
    inventory check, connectivity probe, sudo probe, interpreter probe)
    are all run, in this fixed order, whatever the others return: the
    loop announces the five steps in order and behaves exactly like the
    reference reading that calls every check in turn; the result of the
    verification is the AND of the five verdicts. *)
Theorem run_verification_runs_every_step E self w :
  let o := run_verification E self w in
  let s := spec_run_every_check (verification_checks E self) w in
  announced (emitted o) =
    [ "Ansible Installation Verification"; "Inventory Verification";
      "Connectivity Test"; "Sudo Permission Verification";
      "Python Installation Verification" ] /\
  emitted o = emitted s /\
  disk o = disk s /\
  exists r1 r2 r3 r4 r5,
    value s = Ret [r1; r2; r3; r4; r5] /\
    value o = Ret (r1 && r2 && r3 && r4 && r5).
Proof.
  intros o s. subst o. unfold run_verification. rewrite run_all_spec.
  fold s. rewrite map_value_emitted, map_value_disk.
  destruct (spec_run_every_check_calm (verification_checks E self) w
              (verification_checks_calm E self))
    as (Han & oks & Hoks & Hlen).
  fold s in Han, Hoks. split; [exact Han|]. split; [done|]. split; [done|].
  destruct oks as [|r1 [|r2 [|r3 [|r4 [|r5 [|]]]]]]; try discriminate Hlen.
  exists r1, r2, r3, r4, r5. split; [done|].
  destruct s as [v fs evs]. simpl in Hoks. subst v. simpl.
  by rewrite andb_true_r, !andb_assoc.
Qed.

(** ** Configuring one node *)

Lemma take_S_middle {A} (l1 : list A) x l2 :
  take (S (length l1)) (l1 ++ x :: l2) = l1 ++ [x].
Proof. induction l1 as [|a l1 IH]; simpl; [by rewrite take_0|by f_equal]. Qed.

Section Node.

Variable E : env.
Variable self : AnsibleSetup.
Variable host : string.

Lemma execs_exec c ok : execs host [EvExec host c ok] = [(c, ok)].
Proof. unfold execs. cbn [omap list_omap]. by rewrite String.eqb_refl. Qed.

Lemma execs_cons e evs :
  execs host (e :: evs) = execs host [e] ++ execs host evs.
Proof. apply (execs_app host [e]). Qed.

Lemma run_commands_cons c rest w :
  (exists msg,
      run_commands E self host (c :: rest) w =
      Outcome (Ret false) (files w)
        [ EvExec host (escalated self c) false;
          EvLog ERROR ("Failed to execute '" +:+ c +:+ "' on " +:+ host
                       +:+ ": " +:+ msg) ])
  \/ (exists w',
      run_commands E self host (c :: rest) w =
      Outcome (value (run_commands E self host rest w'))
        (disk (run_commands E self host rest w'))
        (EvExec host (escalated self c) true
         :: EvLog INFO ("Successfully executed '" +:+ c +:+ "' on " +:+ host)
         :: emitted (run_commands E self host rest w'))).
Proof.
  cbn [run_commands]. unfold bind, log_info, log_error, emit, ret.
  rewrite execute_remote_command_eq.
  destruct (ssh_exec E w host (escalated self c)) as [status out err|msg];
    [destruct (status =? 0)|]; simpl.
  - right.
    match goal with
    | |- context [run_commands E self host rest ?w'] =>
        exists w'; by destruct (run_commands E self host rest w')
    end.
  - left. by exists err.
  - left. by exists msg.
Qed.

(** The loop over the commands sends them in list order and stops at
    the first one that fails. *)
Lemma run_commands_spec cmds w :
  let o := run_commands E self host cmds w in
  (value o = Ret true /\
   execs host (emitted o) = (fun c => (escalated self c, true)) <$> cmds)
  \/ (exists pre c post,
        cmds = pre ++ c :: post /\
        value o = Ret false /\
        execs host (emitted o) =
          ((fun c => (escalated self c, true)) <$> pre)
            ++ [(escalated self c, false)]).
Proof.
  revert w. induction cmds as [|c rest IH]; intros w; [by left|].
  destruct (run_commands_cons c rest w)
    as [(msg & Heq) | (w' & Heq)]; cbn zeta; rewrite Heq; clear Heq.
  - right. exists [], c, rest. cbn [value emitted].
    rewrite execs_cons, execs_exec. done.
  - cbn [value emitted].
    rewrite execs_cons, execs_exec, (execs_cons (EvLog _ _)).
    change (execs host [EvLog INFO ?m]) with (@nil (string * bool)).
    destruct (IH w') as [[Hv Hx] | (pre & c' & post & -> & Hv & Hx)].
    + left. by rewrite Hx.
    + right. exists (c :: pre), c', post. by rewrite Hx.
Qed.

Lemma run_commands_returns cmds w :
  exists b, value (run_commands E self host cmds w) = Ret b.
Proof.
  destruct (run_commands_spec cmds w)
    as [[Hv _] | (? & ? & ? & _ & Hv & _)]; eauto.
Qed.

(** Names the world in which [setup_node] enters the provisioning loop
    and the outcome of the loop, which never raises. *)
Ltac enter_loop :=
  match goal with
  | |- context [run_commands E self host commands ?w'] =>
      exists w';
      let b := fresh "b" in
      let Hb := fresh "Hb" in
      let v := fresh "v" in
      destruct (run_commands_returns commands w') as [b Hb];
      destruct (run_commands E self host commands w') as [v ? ?];
      simpl in Hb; subst v
  end.

(** Every trace [setup_node] can leave. The line [Could not connect] is
    logged only when the key is refused and no password is set; when a
    password is set and refused too, the exception of the second login
    goes to the outer handler and the line is [Error setting up]. *)
Lemma setup_node_trace w :
  let o := setup_node E self host w in
  let hello := EvLog INFO ("Setting up node: " +:+ host) in
  let by_key ok :=
    EvConnect host (ssh_user self) (KeyFile (ssh_key_path self)) ok in
  let by_password ok :=
    EvConnect host (ssh_user self) (Password (text (ssh_password self))) ok in
  (exists w',
      value o = value (run_commands E self host commands w') /\
      emitted o = [hello; by_key true]
                    ++ emitted (run_commands E self host commands w')
                    ++ [EvClose host])
  \/ (truthy (ssh_password self) = true /\ exists w',
      value o = value (run_commands E self host commands w') /\
      emitted o = [hello; by_key false; by_password true]
                    ++ emitted (run_commands E self host commands w')
                    ++ [EvClose host])
  \/ (truthy (ssh_password self) = true /\ exists e,
      value o = Ret false /\
      emitted o = [ hello; by_key false; by_password false;
                    EvLog ERROR ("Error setting up " +:+ host +:+ ": " +:+ e);
                    EvClose host ])
  \/ (truthy (ssh_password self) = false /\
      value o = Ret false /\
      emitted o = [ hello; by_key false;
                    EvLog ERROR ("Could not connect to " +:+ host);
                    EvClose host ]).
Proof.
  cbv zeta.
  unfold setup_node, try_finally, try_except, bind, log_info, log_error,
    emit, ret.
  cbn -[run_commands commands connect].
  rewrite (connect_eq E self host (KeyFile _)).
  destruct (ssh_connect E _ host _ (KeyFile _)) as [msg|];
    cbn -[run_commands commands connect].
  - destruct (truthy (ssh_password self)) eqn:Hpw;
      cbn -[run_commands commands connect].
    + rewrite connect_eq.
      destruct (ssh_connect E _ host _ (Password _)) as [msg'|];
        cbn -[run_commands commands connect].
      * right. right. left. split; [done|]. by exists msg'.
      * right. left. split; [done|]. enter_loop. by cbn.
    + right. right. right. done.
  - left. enter_loop. by cbn.
Qed.

(** [setup_node] either never gets a session, and then sends nothing,
    or runs the provisioning loop once over the fixed list. *)
Lemma setup_node_cases w :
  let o := setup_node E self host w in
  (value o = Ret false /\ execs host (emitted o) = [])
  \/ (exists w',
        value o = value (run_commands E self host commands w') /\
        execs host (emitted o)
          = execs host (emitted (run_commands E self host commands w'))).
Proof.
  destruct (setup_node_trace w)
    as [(w' & Hv & Hx) | [(_ & w' & Hv & Hx) | [(_ & e & Hv & Hx)
       | (_ & Hv & Hx)]]];
    cbv zeta; rewrite Hx, Hv.
  - right. exists w'. split; [done|]. rewrite !execs_app, app_nil_r. done.
  - right. exists w'. split; [done|]. rewrite !execs_app, app_nil_r. done.
  - by left.
  - by left.
Qed.

(** C5. For every host and every position [i] of the fixed provisioning
    list: when the command sent at position [i] fails, [setup_node]
    returns false for that host and the commands sent to it are exactly
    those at positions 0..i of the list, so none of the later ones is
    run. *)
Theorem setup_node_stops_at_first_failure w i c :
  let o := setup_node E self host w in
  execs host (emitted o) !! i = Some (c, false) ->
  value o = Ret false /\
  (execs host (emitted o)).*1 = take (S i) (escalated self <$> commands).
Proof.
  intros o Hi. subst o.
  destruct (setup_node_cases w) as [[Hv Hx] | (w' & Hv & Hx)].
  { by rewrite Hx in Hi. }
  rewrite Hx in Hi |- *. rewrite Hv. clear Hv Hx.
  destruct (run_commands_spec commands w')
    as [[Hv Hx] | (pre & c' & post & Hcmds & Hv & Hx)].
  - rewrite Hx, list_lookup_fmap in Hi.
    destruct (commands !! i); simpl in Hi; discriminate || congruence.
  - rewrite Hx in Hi |- *. split; [done|].
    assert (i = length pre) as ->.
    { destruct (decide (i < length pre)%nat) as [Hlt|Hge].
      - rewrite lookup_app_l in Hi by by rewrite length_fmap.
        rewrite list_lookup_fmap in Hi.
        destruct (pre !! i); simpl in Hi; discriminate || congruence.
      - apply lookup_lt_Some in Hi.
        rewrite List.length_app, length_fmap in Hi. simpl in Hi. lia. }
    rewrite Hcmds, !fmap_app, <- list_fmap_compose. cbn [fmap list_fmap fst].
    rewrite <- (length_fmap (escalated self) pre) at 1.
    by rewrite take_S_middle.
Qed.

End Node.

Lemma setup_node_stops_at_first_failure_witness :
  execs "10.0.0.2"
    (emitted (setup_node env_install_fails (example_setup None) "10.0.0.2"
                empty_world)) !! 1%nat
  = Some ("sudo apt-get install -y python3-pip sshpass", false) /\
  value (setup_node env_install_fails (example_setup None) "10.0.0.2"
           empty_world) = Ret false /\
  (execs "10.0.0.2"
     (emitted (setup_node env_install_fails (example_setup None) "10.0.0.2"
                 empty_world))).*1
  = take 2 (escalated (example_setup None) <$> commands).
Proof.
  split; [vm_compute; reflexivity|].
  apply (setup_node_stops_at_first_failure env_install_fails
           (example_setup None) "10.0.0.2" empty_world 1
           "sudo apt-get install -y python3-pip sshpass").
  vm_compute. reflexivity.
Defined.

(** ** A host that cannot be reached *)

(** C3. With the password [secret] set and hosts that refuse both the
    key and the password, [setup_node] for 10.0.0.2 returns false without
    sending any command and the run fails, but the reason logged is the
    exception of the password login under [Error setting up], not
    [Could not connect]. *)
Theorem setup_node_unreachable_host :
  let self := example_setup (Some "secret") in
  let o := setup_node env_unreachable self "10.0.0.2" empty_world in
  value o = Ret false /\
  execs "10.0.0.2" (emitted o) = [] /\
  emitted o
  = [ EvLog INFO "Setting up node: 10.0.0.2";
      EvConnect "10.0.0.2" "ubuntu" (KeyFile "/home/ubuntu/.ssh/id_rsa") false;
      EvConnect "10.0.0.2" "ubuntu" (Password "secret") false;
      EvLog ERROR "Error setting up 10.0.0.2: Authentication failed.";
      EvClose "10.0.0.2" ] /\
  ~ In "Could not connect to 10.0.0.2" (errors (emitted o)) /\
  value (run env_unreachable self empty_world) = Ret false.
Proof.
  vm_compute. repeat split; try reflexivity.
  intros [H|[]]. discriminate H.
Qed.

(** ** The SSH key *)

(** C6. [create_ssh_key] is idempotent. When a private key file is
    already at the fixed path it returns true and does nothing at all:
    no process is started and the files, the key files among them, are
    as they were. When the key is absent it starts exactly one local
    command, [ssh-keygen] for an RSA key of 4096 bits with an empty
    passphrase at that path, and returns whether that command
    succeeded. *)
Theorem create_ssh_key_idempotent E self w :
  (is_Some (files w !! ssh_key_path self) ->
   create_ssh_key E self w = Outcome (Ret true) (files w) [])
  /\ (files w !! ssh_key_path self = None ->
      exists rc,
        In (EvProc
              (Shell ("ssh-keygen -t rsa -b 4096 -f " +:+ ssh_key_path self
                      +:+ " -N " +:+ dq +:+ dq)) rc)
           (emitted (create_ssh_key E self w)) /\
        started (emitted (create_ssh_key E self w))
          = [Shell ("ssh-keygen -t rsa -b 4096 -f " +:+ ssh_key_path self
                    +:+ " -N " +:+ dq +:+ dq)] /\
        value (create_ssh_key E self w) = Ret (rc =? 0)).
Proof.
  unfold create_ssh_key, bind, path_exists, log_info, log_error, emit, ret.
  split.
  - intros Hkey. by rewrite bool_decide_eq_true_2.
  - intros Hkey. rewrite bool_decide_eq_false_2 by (rewrite Hkey; by inversion 1).
    cbn -[run_command]. rewrite run_command_shell_eq, completed_result_eq.
    cbn. set (p := sh E _ _). exists (returncode p).
    destruct (returncode p =? 0); cbn; auto.
Qed.

Lemma create_ssh_key_idempotent_witness :
  create_ssh_key env_ok (example_setup None) world_with_key
  = Outcome (Ret true) (files world_with_key) [] /\
  exists rc,
    In (EvProc
          (Shell ("ssh-keygen -t rsa -b 4096 -f /home/ubuntu/.ssh/id_rsa -N "
                  +:+ dq +:+ dq)) rc)
       (emitted (create_ssh_key env_ok (example_setup None) empty_world)) /\
    started (emitted (create_ssh_key env_ok (example_setup None) empty_world))
      = [Shell ("ssh-keygen -t rsa -b 4096 -f /home/ubuntu/.ssh/id_rsa -N "
                +:+ dq +:+ dq)] /\
    value (create_ssh_key env_ok (example_setup None) empty_world)
      = Ret (rc =? 0).
Proof.
  split.
  - apply (create_ssh_key_idempotent env_ok (example_setup None) world_with_key).
    vm_compute. eauto.
  - apply (create_ssh_key_idempotent env_ok (example_setup None) empty_world).
    vm_compute. reflexivity.
Defined.

(** ** Running without a password *)

Lemma distribute_ssh_key_no_password E self host w :
  truthy (ssh_password self) = false ->
  distribute_ssh_key E self host w = Outcome (Ret true) (files w) [].
Proof. intros Hpw. unfold distribute_ssh_key, try_except. by rewrite Hpw. Qed.

Lemma distribute_all_no_password E self hosts w :
  truthy (ssh_password self) = false ->
  distribute_all E self hosts w = Outcome (Ret true) (files w) [].
Proof.
  intros Hpw. revert w. induction hosts as [|host rest IH]; intros w; [done|].
  cbn [distribute_all]. unfold bind.
  rewrite distribute_ssh_key_no_password by done. cbn.
  rewrite app_nil_r. destruct w as [fs h]. by rewrite IH.
Qed.

Lemma create_ansible_cfg_writes E self w :
  exists ok rest,
    emitted (create_ansible_cfg E self w)
    = EvWrite "ansible.cfg" (config_content self) ok :: rest.
Proof.
  unfold create_ansible_cfg, try_except, bind, log_error, emit, ret.
  rewrite write_file_eq. destruct (fs_write E w _ _); cbn; eauto.
Qed.

(** C8. In a run configured without a password, [distribute_ssh_key]
    does nothing and returns true for every host (no copy is attempted,
    for one host or for the whole list), and the file written to
    [ansible.cfg] ends with an empty [ansible_become_password] field.
    With master 10.0.0.1 and workers 10.0.0.2 and 10.0.0.3 the workers
    group of the inventory maps [k8s-worker1] to 10.0.0.2 and
    [k8s-worker2] to 10.0.0.3. *)
Theorem run_without_password E self :
  truthy (ssh_password self) = false ->
  (forall host w,
      distribute_ssh_key E self host w = Outcome (Ret true) (files w) [])
  /\ (forall hosts w,
        distribute_all E self hosts w = Outcome (Ret true) (files w) [])
  /\ become_password self = EmptyString
  /\ (forall w, exists ok rest,
        emitted (create_ansible_cfg E self w)
        = EvWrite "ansible.cfg"
            ("[defaults]" +:+ nl +:+
             "inventory = inventory.yml" +:+ nl +:+
             "host_key_checking = False" +:+ nl +:+
             "remote_user = " +:+ ssh_user self +:+ nl +:+
             "private_key_file = ~/.ssh/id_rsa" +:+ nl +:+
             nl +:+
             "[privilege_escalation]" +:+ nl +:+
             "become = True" +:+ nl +:+
             "become_method = sudo" +:+ nl +:+
             "become_user = root" +:+ nl +:+
             "become_ask_pass = False" +:+ nl +:+
             "ansible_become_password = " +:+ nl) ok :: rest)
  /\ (master_ip self = "10.0.0.1" ->
      worker_ips self = ["10.0.0.2"; "10.0.0.3"] ->
      get_path ["all"; "children"; "k8s_cluster"; "children"; "workers"; "hosts"]
        (inventory_data self)
      = Some (PDict {[ "k8s-worker1" := host_entry "10.0.0.2";
                       "k8s-worker2" := host_entry "10.0.0.3" ]})).
Proof.
  intros Hpw. split; [|split; [|split; [|split]]].
  - intros host w. by apply distribute_ssh_key_no_password.
  - intros hosts w. by apply distribute_all_no_password.
  - unfold become_password. by rewrite Hpw.
  - intros w. destruct (create_ansible_cfg_writes E self w) as (ok & rest & ->).
    exists ok, rest. unfold config_content, become_password. by rewrite Hpw.
  - intros _ Hworkers. unfold inventory_data. rewrite Hworkers.
    vm_compute. reflexivity.
Qed.

Lemma run_without_password_witness :
  distribute_all env_ok (example_setup None)
    (all_hosts (example_setup None)) empty_world
  = Outcome (Ret true) ∅ [] /\
  become_password (example_setup None) = EmptyString /\
  get_path ["all"; "children"; "k8s_cluster"; "children"; "workers"; "hosts"]
    (inventory_data (example_setup None))
  = Some (PDict {[ "k8s-worker1" := host_entry "10.0.0.2";
                   "k8s-worker2" := host_entry "10.0.0.3" ]}).
Proof.
  destruct (run_without_password env_ok (example_setup None) eq_refl)
    as (_ & Hall & Hbecome & _ & Hinv).
  split; [apply Hall|]. split; [apply Hbecome|].
  apply Hinv; reflexivity.
Defined.

(** ** Privilege escalation on the remote side *)

Lemma escalated_sudo_space self rest :
  truthy (ssh_password self) = true ->
  escalated self ("sudo " +:+ rest)
  = "echo " +:+ text (ssh_password self) +:+ " | sudo -S " +:+ rest.
Proof.
  intros Hpw. unfold escalated. rewrite Hpw.
  change ("sudo " +:+ rest) with ("sudo" +:+ (" " +:+ rest)) at 1.
  by rewrite startswith_append.
Qed.

Lemma escalated_no_password self command :
  truthy (ssh_password self) = false -> escalated self command = command.
Proof. intros Hpw. unfold escalated. by rewrite Hpw, andb_false_r. Qed.

Lemma escalated_other self command :
  startswith "sudo" command = false -> escalated self command = command.
Proof. intros Hc. unfold escalated. by rewrite Hc. Qed.

(** A string that starts with [p] is [p] followed by its slice from
    the length of [p]. *)
Lemma startswith_inv p s :
  startswith p s = true -> s = p +:+ slice_from (String.length p) s.
Proof.
  unfold startswith. revert s. induction p as [|a p IH]; intros s H; [done|].
  destruct s as [|b s]; [done|]. rewrite prefix_cons in H.
  destruct (ascii_dec a b) as [<-|]; [|done].
  change (String a p +:+ ?x) with (String a (p +:+ x)).
  cbn [String.length slice_from].
  f_equal. by apply IH.
Qed.

(** In the commands of the provisioning list the word [sudo] at the
    start is always followed by a space. *)
Lemma commands_sudo_space command :
  In command commands ->
  startswith "sudo" command = true -> startswith "sudo " command = true.
Proof.
  intros [<-|[<-|[<-|[<-|[<-|[]]]]]]; by vm_compute.
Qed.

(** C9. For every command the script sends over SSH (the five commands
    of the fixed provisioning list are the only ones
    [execute_remote_command] is called with), and for every other
    command in which the word [sudo] at the start is followed by a
    space: one command line is sent in every case; when a password is
    configured and the command starts with [sudo], what is sent is
    [echo PASSWORD | sudo -S REST], where REST is the command after
    [sudo] and the space; when no password is configured, or the
    command does not start with [sudo], the command is sent as it is. *)
Theorem execute_remote_command_escalates E self host command w :
  In command commands \/
  (startswith "sudo" command = true -> startswith "sudo " command = true) ->
  exists sent ok output,
    execute_remote_command E self host command w
    = Outcome (Ret (ok, output)) (files w) [EvExec host sent ok] /\
    (truthy (ssh_password self) = true ->
     startswith "sudo" command = true ->
     exists rest,
       command = "sudo " +:+ rest /\
       sent = "echo " +:+ text (ssh_password self) +:+ " | sudo -S " +:+ rest)
    /\ (truthy (ssh_password self) = false -> sent = command)
    /\ (startswith "sudo" command = false -> sent = command).
Proof.
  intros H.
  assert (Hsp : startswith "sudo" command = true ->
                startswith "sudo " command = true).
  { destruct H as [Hin|H]; [by apply commands_sudo_space|done]. }
  clear H. exists (escalated self command).
  assert (Hsent :
    (truthy (ssh_password self) = true ->
     startswith "sudo" command = true ->
     exists rest,
       command = "sudo " +:+ rest /\
       escalated self command
       = "echo " +:+ text (ssh_password self) +:+ " | sudo -S " +:+ rest)
    /\ (truthy (ssh_password self) = false -> escalated self command = command)
    /\ (startswith "sudo" command = false -> escalated self command = command)).
  { split; [|split].
    - intros Hpw Hs. apply Hsp, startswith_inv in Hs.
      change (String.length "sudo ") with 5%nat in Hs.
      exists (slice_from 5 command). split; [exact Hs|].
      rewrite Hs at 1. by apply escalated_sudo_space.
    - apply escalated_no_password.
    - apply escalated_other. }
  rewrite execute_remote_command_eq.
  destruct (ssh_exec E w host (escalated self command)) as [status out err|msg];
    eauto.
Qed.

Lemma execute_remote_command_escalates_witness :
  exists sent ok output,
    execute_remote_command env_ok (example_setup (Some "pw")) "10.0.0.1"
      "sudo apt-get update" empty_world
    = Outcome (Ret (ok, output)) ∅ [EvExec "10.0.0.1" sent ok] /\
    sent = "echo pw | sudo -S apt-get update".
Proof.
  destruct (execute_remote_command_escalates env_ok (example_setup (Some "pw"))
              "10.0.0.1" "sudo apt-get update" empty_world)
    as (sent & ok & output & Heq & Hsudo & _); [left; cbn; by left|].
  exists sent, ok, output. split; [exact Heq|].
  destruct (Hsudo eq_refl eq_refl) as (rest & Hrest & ->).
  apply (inj (String.append "sudo ")) in Hrest. by rewrite <- Hrest.
Defined.

(** ** The inventory *)

Lemma worker_name_inj i j : worker_name i = worker_name j -> i = j.
Proof.
  unfold worker_name. intros H.
  apply (inj (String.append "k8s-worker")) in H.
  apply (inj pretty) in H. lia.
Qed.

Lemma worker_hosts_snoc ips ip :
  worker_hosts (ips ++ [ip])
  = <[worker_name (length ips) := host_entry ip]> (worker_hosts ips).
Proof.
  unfold worker_hosts, enumerate. rewrite imap_app, fold_left_app. simpl.
  by rewrite Nat.add_0_r.
Qed.

(** The workers dictionary holds the generated names and nothing else. *)
Lemma worker_hosts_lookup ips k v :
  worker_hosts ips !! k = Some v <->
  exists i ip, ips !! i = Some ip /\ k = worker_name i /\ v = host_entry ip.
Proof.
  revert k v. induction ips as [|ip ips IH] using rev_ind; intros k v.
  - unfold worker_hosts. simpl. rewrite lookup_empty. split; [done|].
    by intros (i & ip & ? & _).
  - rewrite worker_hosts_snoc, lookup_insert_Some, IH. split.
    + intros [[<- <-] | [Hne (i & ip' & Hi & -> & ->)]].
      * exists (length ips), ip. by rewrite list_lookup_middle.
      * exists i, ip'. split; [|done]. by apply lookup_app_l_Some.
    + intros (i & ip' & Hi & -> & ->).
      apply lookup_app_Some in Hi as [Hi | [Hlen Hi]].
      * right. split; [|eauto]. intros Heq%worker_name_inj. subst i.
        apply lookup_lt_Some in Hi. lia.
      * left. apply list_lookup_singleton_Some in Hi as [Hi ->].
        split; [f_equal; lia|done].
Qed.

Lemma worker_hosts_to_list ips :
  map_to_list (worker_hosts ips)
  ≡ₚ imap (fun i ip => (worker_name i, host_entry ip)) ips.
Proof.
  induction ips as [|ip ips IH] using rev_ind.
  - unfold worker_hosts. simpl. by rewrite map_to_list_empty.
  - rewrite worker_hosts_snoc, imap_app. simpl. rewrite Nat.add_0_r.
    rewrite map_to_list_insert.
    + rewrite IH. by rewrite Permutation_cons_append.
    + destruct (worker_hosts ips !! worker_name (length ips)) as [v|] eqn:Hv;
        [|done].
      apply worker_hosts_lookup in Hv as (i & ip' & Hi & Heq%worker_name_inj & _).
      subst i. apply lookup_lt_Some in Hi. lia.
Qed.

(** C4. For every worker list (the non-empty ones among them) the
    inventory has exactly one master entry, [k8s-master] with the master
    IP, and exactly [len(workers)] worker entries: the entries of the
    workers group are, each exactly once, the names [k8s-worker1] ...
    [k8s-workerN], the i-th name carrying the i-th IP of the list. *)
Theorem inventory_lists_every_host_once self :
  get_path ["all"; "children"; "k8s_cluster"; "children"; "master"; "hosts"]
    (inventory_data self)
  = Some (PDict {[ "k8s-master" := host_entry (master_ip self) ]})
  /\ exists workers,
      get_path
        ["all"; "children"; "k8s_cluster"; "children"; "workers"; "hosts"]
        (inventory_data self) = Some (PDict workers)
      /\ size workers = length (worker_ips self)
      /\ map_to_list workers
         ≡ₚ imap (fun i ip =>
                    ("k8s-worker" +:+ pretty (i + 1)%nat,
                     PDict {[ "ansible_host" := PStr ip ]}))
              (worker_ips self)
      /\ (forall i ip,
            worker_ips self !! i = Some ip ->
            workers !! ("k8s-worker" +:+ pretty (i + 1)%nat)
            = Some (PDict {[ "ansible_host" := PStr ip ]})).
Proof.
  split; [by vm_compute|].
  exists (worker_hosts (worker_ips self)). split; [by vm_compute|].
  split; [|split].
  - rewrite <- length_map_to_list, worker_hosts_to_list. apply length_imap.
  - apply worker_hosts_to_list.
  - intros i ip Hi. apply worker_hosts_lookup. by exists i, ip.
Qed.

(** ** The coordinator *)

Lemma passed_true o : passed o = true <-> value o = Ret true.
Proof. unfold passed. destruct (value o) as [[|]|e]; split; done. Qed.

Lemma passed_false o : passed o = false <-> failed o.
Proof. unfold passed, failed. destruct (value o) as [[|]|e]; split; done. Qed.

Lemma after_ret {A} (a : A) w : after w (ret a w) = w.
Proof. unfold after, ret. simpl. rewrite app_nil_r. by destruct w. Qed.

Lemma distribute_all_cons E self host rest w :
  value (distribute_ssh_key E self host w) = Ret true ->
  value (distribute_all E self (host :: rest) w)
  = value (distribute_all E self rest (after w (distribute_ssh_key E self host w)))
  /\ after w (distribute_all E self (host :: rest) w)
     = after (after w (distribute_ssh_key E self host w))
         (distribute_all E self rest
            (after w (distribute_ssh_key E self host w))).
Proof.
  intros Hv. cbn [distribute_all]. unfold bind, after.
  destruct (distribute_ssh_key E self host w) as [v fs evs]. simpl in Hv.
  subst v. cbn -[distribute_all].
  destruct (distribute_all E self rest _) as [v' fs' evs']. cbn.
  by rewrite app_assoc.
Qed.

Lemma distribute_all_cons_failed E self host rest w :
  failed (distribute_ssh_key E self host w) ->
  failed (distribute_all E self (host :: rest) w).
Proof.
  unfold failed. cbn [distribute_all]. unfold bind.
  destruct (distribute_ssh_key E self host w) as [[[|]|e] fs evs]; cbn; done.
Qed.

(** The distribution loop fails exactly when the copy to one host fails,
    the copies to the hosts before it having succeeded. *)
Lemma distribute_all_failed E self hosts w :
  failed (distribute_all E self hosts w) <->
  exists pre host post,
    hosts = pre ++ host :: post /\
    value (distribute_all E self pre w) = Ret true /\
    failed (distribute_ssh_key E self host
              (after w (distribute_all E self pre w))).
Proof.
  revert w. induction hosts as [|h rest IH]; intros w.
  - split; [by intros []|]. intros (pre & host & post & Heq & _).
    by destruct pre.
  - destruct (passed (distribute_ssh_key E self h w)) eqn:Hh;
      [apply passed_true in Hh|apply passed_false in Hh].
    + destruct (distribute_all_cons E self h rest w Hh) as [Hv Hw].
      unfold failed at 1. rewrite Hv. fold (failed
        (distribute_all E self rest (after w (distribute_ssh_key E self h w)))).
      rewrite IH. split.
      * intros (pre & host & post & -> & Hpre & Hfail).
        exists (h :: pre), host, post. split; [done|].
        destruct (distribute_all_cons E self h pre w Hh) as [Hv' Hw'].
        by rewrite Hv', Hw'.
      * intros (pre & host & post & Heq & Hpre & Hfail).
        destruct pre as [|h' pre]; simpl in Heq.
        { injection Heq as <- <-. cbn [distribute_all] in Hfail.
          rewrite (after_ret true w) in Hfail. done. }
        injection Heq as <- ->.
        exists pre, host, post. split; [done|].
        destruct (distribute_all_cons E self h pre w Hh) as [Hv' Hw'].
        by rewrite <- Hv', <- Hw'.
    + split.
      * intros _. exists [], h, rest. split; [done|]. split; [done|].
        cbn [distribute_all]. by rewrite (after_ret true w).
      * intros _. by apply distribute_all_cons_failed.
Qed.

Lemma enumerate_snd {A} (l : list A) : (enumerate l).*2 = l.
Proof.
  unfold enumerate. rewrite fmap_imap.
  rewrite (imap_ext _ (const id) l) by done.
  by rewrite imap_const, list_fmap_id.
Qed.

(** [as_completed] yields every future, each once. *)
Lemma as_completed_perm E {A} w (l : list A) : as_completed E w l ≡ₚ l.
Proof.
  unfold as_completed. rewrite merge_sort_Permutation. by rewrite enumerate_snd.
Qed.

Lemma collect_spec done w :
  (Forall (fun f => value f.2 = Ret true) done /\
   collect done w = Outcome (Ret true) (files w) [])
  \/ (Exists (fun f => failed f.2) done /\
      exists msg, collect done w = Outcome (Ret false) (files w) [EvLog ERROR msg]).
Proof.
  induction done as [|[host o] rest IH]; [by left|].
  cbn [collect]. destruct (value o) as [[|]|e] eqn:Ho.
  - destruct IH as [[Hall Heq] | [Hex Heq]].
    + left. split; [|done]. by constructor.
    + right. split; [|done]. by apply Exists_cons_tl.
  - right. split; [|by eexists]. apply Exists_cons_hd. unfold failed. simpl.
    by rewrite Ho.
  - right. split; [|by eexists]. apply Exists_cons_hd. unfold failed. simpl.
    by rewrite Ho.
Qed.

(** The pool fails exactly when [setup_node] fails for one of the
    hosts, in whatever order the workers finish. *)
Lemma setup_all_failed E self hosts w :
  hosts <> [] ->
  (exists b, value (setup_all E self hosts w) = Ret b) /\
  (failed (setup_all E self hosts w) <->
   exists host, host ∈ hosts /\ failed (setup_node E self host w)).
Proof.
  intros Hne. unfold setup_all.
  destruct hosts as [|h0 rest]; [done|]. set (hosts := h0 :: rest).
  change ((length hosts =? 0)%nat) with false. cbv iota.
  unfold bind, get_world, emit_all.
  cbn -[as_completed submit_all collect setup_node failed hosts].
  rewrite app_nil_r.
  set (done := as_completed E _ (submit_all E self hosts _)).
  assert (Hdone : Exists (fun f => failed f.2) done <->
                  exists host, host ∈ hosts /\ failed (setup_node E self host w)).
  { subst done. rewrite as_completed_perm. unfold submit_all.
    rewrite Exists_exists. destruct w as [fs h]. cbn [files history]. split.
    - intros ([host o] & Hin & Hf). apply list_elem_of_fmap in Hin
        as (host' & [= -> ->] & Hin). eauto.
    - intros (host & Hin & Hf). exists (host, setup_node E self host (World fs h)).
      split; [|done]. apply list_elem_of_fmap. eauto. }
  match goal with |- context [collect done ?w'] =>
    destruct (collect_spec done w') as [[Hall Heq] | [Hex (msg & Heq)]];
    rewrite Heq
  end; cbn.
  - split; [by exists true|]. unfold failed. cbn. split; [done|].
    intros Hex%Hdone. exfalso.
    apply Exists_exists in Hex as (f & Hin & Hf).
    rewrite Forall_forall in Hall. by apply Hf, Hall.
  - split; [by exists false|]. unfold failed. cbn. split; [|done].
    intros _. by apply Hdone.
Qed.

(** Steps through [run] without opening the phases it calls. *)
Ltac run_step :=
  cbn -[create_ssh_key distribute_all setup_all create_inventory_file
        create_ansible_cfg verify_ansible all_hosts].

(** [run] returns the AND of its six phases, each one started in the
    world the phases before it left behind. *)
Lemma run_value E self w :
  let o_key := create_ssh_key E self w in
  let w1 := after w o_key in
  let o_copy := distribute_all E self (all_hosts self) w1 in
  let w2 := after w1 o_copy in
  let o_nodes := setup_all E self (all_hosts self) w2 in
  let w3 := after w2 o_nodes in
  let o_inv := create_inventory_file E self w3 in
  let w4 := after w3 o_inv in
  let o_cfg := create_ansible_cfg E self w4 in
  let w5 := after w4 o_cfg in
  let o_ver := verify_ansible E w5 in
  value (run E self w)
  = Ret (passed o_key && passed o_copy && passed o_nodes && passed o_inv
         && passed o_cfg && passed o_ver).
Proof.
  cbv zeta. unfold run, try_except, bind, after, passed, log_info, log_error,
    emit, ret.
  destruct (create_ssh_key E self w) as [[[|]|e1] fs1 evs1];
    run_step; [|done|done].
  destruct (distribute_all E self _ _) as [[[|]|e2] fs2 evs2];
    run_step; [|done|done].
  destruct (setup_all E self _ _) as [[[|]|e3] fs3 evs3];
    run_step; [|done|done].
  destruct (create_inventory_file E self _) as [[[|]|e4] fs4 evs4];
    run_step; [|done|done].
  destruct (create_ansible_cfg E self _) as [[[|]|e5] fs5 evs5];
    run_step; [|done|done].
  destruct (verify_ansible E _) as [[[|]|e6] fs6 evs6]; by cbn.
Qed.

(** C2. [run] returns false if and only if at least one of these failed:
    the SSH key generation, the key distribution to some host (those to
    the hosts before it having succeeded), the configuration of some
    host, the write of the inventory file, the write of the
    configuration file, or the final [ansible --version] check; when all
    of them succeed it returns true. Each step is taken in the world the
    steps before it left behind. *)
Theorem run_false_iff_a_step_failed E self w :
  let o_key := create_ssh_key E self w in
  let w1 := after w o_key in
  let o_copy := distribute_all E self (all_hosts self) w1 in
  let w2 := after w1 o_copy in
  let o_nodes := setup_all E self (all_hosts self) w2 in
  let w3 := after w2 o_nodes in
  let o_inv := create_inventory_file E self w3 in
  let w4 := after w3 o_inv in
  let o_cfg := create_ansible_cfg E self w4 in
  let w5 := after w4 o_cfg in
  let o_ver := verify_ansible E w5 in
  let some_step_failed :=
    failed o_key
    \/ (exists pre host post,
          all_hosts self = pre ++ host :: post /\
          value (distribute_all E self pre w1) = Ret true /\
          failed (distribute_ssh_key E self host
                    (after w1 (distribute_all E self pre w1))))
    \/ (exists host,
          host ∈ all_hosts self /\ failed (setup_node E self host w2))
    \/ failed o_inv
    \/ failed o_cfg
    \/ failed o_ver in
  (value (run E self w) = Ret false <-> some_step_failed)
  /\ (value (run E self w) = Ret true <-> ~ some_step_failed).
Proof.
  intros. pose proof (run_value E self w) as Hrun. cbv zeta in Hrun.
  fold o_key w1 o_copy w2 o_nodes w3 o_inv w4 o_cfg w5 o_ver in Hrun.
  assert (Hne : all_hosts self <> []) by done.
  destruct (setup_all_failed E self (all_hosts self) w2 Hne) as [_ Hnodes].
  fold o_nodes in Hnodes.
  pose proof (distribute_all_failed E self (all_hosts self) w1) as Hcopy.
  fold o_copy in Hcopy.
  assert (Hiff : passed o_key && passed o_copy && passed o_nodes
                 && passed o_inv && passed o_cfg && passed o_ver = false
                 <-> some_step_failed).
  { subst some_step_failed. rewrite <- Hcopy, <- Hnodes, <- !passed_false.
    rewrite !andb_false_iff. tauto. }
  rewrite Hrun. split.
  - rewrite <- Hiff. split; [by intros [= ->]|by intros ->].
  - rewrite <- Hiff. split.
    + intros [= ->]. done.
    + intros Hnot. by apply not_false_iff_true in Hnot as ->.
Qed.

(** ** The script *)

Lemma run_returns E self w : exists b, value (run E self w) = Ret b.
Proof. pose proof (run_value E self w) as H. cbv zeta in H. eauto. Qed.

Lemma run_verification_returns E self w :
  exists b, value (run_verification E self w) = Ret b.
Proof.
  unfold run_verification. rewrite run_all_spec.
  destruct (spec_run_every_check_calm (verification_checks E self) w
              (verification_checks_calm E self)) as (_ & oks & Hoks & _).
  destruct (spec_run_every_check _ w) as [v fs evs]. simpl in Hoks. subst v.
  simpl. eauto.
Qed.

(** C1, as the code has it. The exit code is 1 when the setup phase
    returns false, and then the script stops there: the verification
    phase is not run and nothing is printed. When the setup phase
    returns true the verification phase is run after it, prints one
    banner that says whether it passed, and the exit code is 0 whatever
    the verification found. *)
Theorem main_exit_code E args w :
  let setup :=
    AnsibleSetup_init E (arg_master args) (arg_workers args) (arg_user args)
      (arg_password args) in
  let s := run E setup w in
  let v := run_verification E AnsibleVerification_init (after w s) in
  let o := main E args w in
  (value s = Ret false /\ exit_code o = 1 /\ emitted o = emitted s)
  \/ (value s = Ret true /\ exit_code o = 0 /\
      exists verdict,
        value v = Ret verdict /\
        emitted o
        = emitted s ++ emitted v
            ++ [EvPrint (if verdict then banner_ok else banner_issues)]).
Proof.
  intros setup s v o. subst o v. unfold main, exit_code, verify_setup, bind.
  fold setup. fold s.
  destruct (run_returns E setup w) as [b Hb]. fold s in Hb.
  destruct s as [vs fs evs]. simpl in Hb. subst vs. unfold after.
  cbn -[run_verification]. destruct b; cbn -[run_verification].
  - right. split; [done|].
    match goal with
    | |- context [run_verification E AnsibleVerification_init ?w'] =>
        destruct (run_verification_returns E AnsibleVerification_init w')
          as [verdict Hv];
        destruct (run_verification E AnsibleVerification_init w')
          as [vv fv ev]
    end.
    simpl in Hv. subst vv. destruct verdict; cbn.
    + split; [done|]. exists true. by rewrite app_nil_r.
    + split; [done|]. exists false. by rewrite app_nil_r.
  - left. by rewrite app_nil_r.
Qed.

(** C1, as the claim states it, fails: on a control machine without
    [ssh-keygen] the setup phase fails, the exit code is 1, and the
    verification phase is not run: no step is announced and no banner is
    printed. *)
Lemma main_skips_verification_when_setup_fails :
  value (run env_no_tools
           (AnsibleSetup_init env_no_tools "10.0.0.1" ["10.0.0.2"; "10.0.0.3"]
              "ubuntu" None) empty_world) = Ret false /\
  exit_code (main env_no_tools (example_args None) empty_world) = 1 /\
  announced (emitted (main env_no_tools (example_args None) empty_world)) = [] /\
  printed (emitted (main env_no_tools (example_args None) empty_world)) = [].
Proof. by vm_compute. Qed.

(** * More properties *)

(** Looks an event up in a trace that can be computed. *)
Ltac find_event := vm_compute; repeat first [left; reflexivity | right].

(** ** More about one node *)

Section NodeMore.

Variable E : env.
Variable self : AnsibleSetup.
Variable host : string.

(** The provisioning loop talks to its host and to the log only, and
    leaves the local files alone. *)
Lemma run_commands_quiet cmds w :
  forallb (about_host host) (emitted (run_commands E self host cmds w)) = true
  /\ disk (run_commands E self host cmds w) = files w.
Proof.
  revert w. induction cmds as [|c rest IH]; intros w; [done|].
  cbn [run_commands]. unfold bind, log_info, log_error, emit, ret.
  rewrite execute_remote_command_eq.
  destruct (ssh_exec E w host (escalated self c)) as [status out err|msg];
    [destruct (status =? 0)|]; cbn -[run_commands];
    rewrite ?String.eqb_refl; try done.
  match goal with
  | |- context [run_commands E self host rest ?w'] =>
      destruct (IH w') as [Hev Hdisk];
      destruct (run_commands E self host rest w') as [v fs evs]
  end.
  cbn in *. by rewrite String.eqb_refl.
Qed.



(** Every event of [setup_node] is a log line or belongs to the SSH
    session with its host. *)
Lemma setup_node_about_host w :
  forallb (about_host host) (emitted (setup_node E self host w)) = true.
Proof.
  destruct (setup_node_trace E self host w)
    as [(w' & _ & Hx) | [(_ & w' & _ & Hx) | [(_ & e & _ & Hx)
       | (_ & _ & Hx)]]]; cbv zeta in Hx; rewrite Hx.
  - destruct (run_commands_quiet commands w') as [Hall _].
    rewrite !forallb_app, Hall. cbn. by rewrite String.eqb_refl.
  - destruct (run_commands_quiet commands w') as [Hall _].
    rewrite !forallb_app, Hall. cbn. by rewrite String.eqb_refl.
  - cbn. by rewrite String.eqb_refl.
  - cbn. by rewrite String.eqb_refl.
Qed.

(** X2. [setup_node] keeps to its own session: it starts no local
    process, writes no file and prints nothing, and every login and
    every command of its trace goes to its own host. *)
Theorem setup_node_own_session w :
  let evs := emitted (setup_node E self host w) in
  started evs = [] /\ writes evs = [] /\ printed evs = [] /\
  (forall h u a ok, In (EvConnect h u a ok) evs -> h = host) /\
  (forall h c ok, In (EvExec h c ok) evs -> h = host).
Proof.
  cbv zeta. pose proof (setup_node_about_host w) as Hall.
  induction (emitted (setup_node E self host w)) as [|e evs IH]; [done|].
  cbn [forallb] in Hall. apply andb_true_iff in Hall as [He Hevs].
  destruct (IH Hevs) as (Hs & Hw & Hp & Hc & Hx).
  destruct e; try discriminate He; cbn in He; apply String.eqb_eq in He
    || clear He; (repeat split; [done..| |]);
    intros ? ? ? ? [H|H] || intros ? ? ? [H|H];
    try discriminate H; eauto; by injection H as <-.
Qed.

Lemma run_commands_no_connect cmds w h u a ok :
  ~ In (EvConnect h u a ok) (emitted (run_commands E self host cmds w)).
Proof.
  revert w. induction cmds as [|c rest IH]; intros w; [by intros []|].
  destruct (run_commands_cons E self host c rest w)
    as [(msg & ->) | (w' & ->)]; cbn [emitted].
  - intros [H|[H|[]]]; discriminate H.
  - intros [H|[H|H]]; try discriminate H. by apply (IH w').
Qed.

(** X3. The order of the logins. The key is always tried first. The
    password is tried only when a password is set and the key was
    refused, and it is the configured password that is sent. Commands
    are sent only over a session that a login opened. *)
Theorem setup_node_login_order w :
  let o := setup_node E self host w in
  let by_key ok :=
    EvConnect host (ssh_user self) (KeyFile (ssh_key_path self)) ok in
  (exists ok rest,
      emitted o = EvLog INFO ("Setting up node: " +:+ host)
                  :: by_key ok :: rest)
  /\ (forall h u p ok,
        In (EvConnect h u (Password p) ok) (emitted o) ->
        truthy (ssh_password self) = true /\
        p = text (ssh_password self) /\
        In (by_key false) (emitted o))
  /\ (execs host (emitted o) <> [] ->
      exists a, In (EvConnect host (ssh_user self) a true) (emitted o)).
Proof.
  cbv zeta.
  destruct (setup_node_trace E self host w)
    as [(w' & _ & Hx) | [(Hpw & w' & _ & Hx) | [(Hpw & e & _ & Hx)
       | (Hpw & _ & Hx)]]]; cbv zeta in Hx; rewrite Hx; cbn [app].
  - split; [by eexists _, _|]. split.
    + intros h u p ok [H|[H|H]]; try discriminate H.
      apply List.in_app_or in H; destruct H as [H|[H|[]]]; try discriminate H.
      by apply run_commands_no_connect in H.
    + intros _. eexists. right. by left.
  - split; [by eexists _, _|]. split.
    + intros h u p ok [H|[H|[H|H]]]; try discriminate H.
      * injection H as <- <- <- <-. split; [done|]. split; [done|].
        right. by left.
      * apply List.in_app_or in H; destruct H as [H|[H|[]]]; try discriminate H.
        by apply run_commands_no_connect in H.
    + intros _. eexists. right. right. by left.
  - split; [by eexists _, _|]. split.
    + intros h u p ok [H|[H|[H|[H|[H|[]]]]]]; try discriminate H.
      injection H as <- <- <- <-. split; [done|]. split; [done|].
      right. by left.
    + intros Hne. exfalso. apply Hne. unfold execs. by cbn.
  - split; [by eexists _, _|]. split.
    + intros h u p ok [H|[H|[H|[H|[]]]]]; discriminate H.
    + intros Hne. exfalso. apply Hne. unfold execs. by cbn.
Qed.

(** X4. [setup_node] returns true exactly when all the commands of the
    provisioning list were sent, in order, and every one succeeded. *)
Theorem setup_node_true_iff_all_commands w :
  let o := setup_node E self host w in
  value o = Ret true <->
  execs host (emitted o) = (fun c => (escalated self c, true)) <$> commands.
Proof.
  cbv zeta.
  destruct (setup_node_cases E self host w) as [[Hv Hx] | (w' & Hv & Hx)];
    cbv zeta in Hv, Hx; rewrite Hv, Hx.
  - split; [done|]. intros H. by apply (f_equal length) in H.
  - destruct (run_commands_spec E self host commands w')
      as [[Hv' Hx'] | (pre & c & post & Hcmds & Hv' & Hx')];
      cbv zeta in Hv', Hx'; rewrite Hv', Hx'.
    + done.
    + split; [done|]. intros H. exfalso.
      apply (f_equal (fmap snd)) in H.
      rewrite fmap_app, <- !list_fmap_compose in H.
      assert (Hin : false ∈
                ((snd ∘ (fun c0 : string => (escalated self c0, true)))
                   <$> commands)).
      { rewrite <- H. apply elem_of_app. right. cbn. apply list_elem_of_here. }
      apply list_elem_of_fmap in Hin as (? & Hd & _). discriminate Hd.
Qed.

End NodeMore.

Lemma setup_node_login_order_witness :
  let o := setup_node env_password_only (example_setup (Some "secret"))
             "10.0.0.2" empty_world in
  truthy (Some "secret") = true /\
  In (EvConnect "10.0.0.2" "ubuntu" (KeyFile "/home/ubuntu/.ssh/id_rsa") false)
     (emitted o).
Proof.
  destruct (setup_node_login_order env_password_only
              (example_setup (Some "secret")) "10.0.0.2" empty_world)
    as (_ & Hpw & _).
  destruct (Hpw "10.0.0.2" "ubuntu" "secret" true) as (Ht & _ & Hk);
    [find_event|].
  split; [exact Ht|exact Hk].
Defined.

(** ** More about the commands sent to a host *)

(** [execute_remote_command] never raises and sends exactly one
    command, the escalated one, whatever the session does: an exit
    status other than 0 and an exception of the session both come back
    as [(False, text)]. It leaves the local files alone. *)
Lemma execute_remote_command_sends_once E self host command w :
  exists ok output,
    execute_remote_command E self host command w
    = Outcome (Ret (ok, output)) (files w)
        [EvExec host (escalated self command) ok].
Proof.
  rewrite execute_remote_command_eq.
  destruct (ssh_exec E w host (escalated self command)); eauto.
Qed.

(** X5. With a password set, a command [sudo REST] is sent as
    [echo PASSWORD | sudo -S REST]. *)
Theorem execute_remote_command_pipes_password E self host rest w :
  truthy (ssh_password self) = true ->
  exists ok,
    emitted (execute_remote_command E self host ("sudo " +:+ rest) w)
    = [EvExec host
         ("echo " +:+ text (ssh_password self) +:+ " | sudo -S " +:+ rest)
         ok].
Proof.
  intros Hpw.
  destruct (execute_remote_command_sends_once E self host ("sudo " +:+ rest) w)
    as (ok & output & ->).
  exists ok. cbn [emitted]. by rewrite escalated_sudo_space.
Qed.

Lemma execute_remote_command_pipes_password_witness :
  exists ok,
    emitted (execute_remote_command env_ok (example_setup (Some "secret"))
               "10.0.0.1" ("sudo " +:+ "apt-get update") empty_world)
    = [EvExec "10.0.0.1"
         ("echo " +:+ "secret" +:+ " | sudo -S " +:+ "apt-get update") ok].
Proof.
  apply (execute_remote_command_pipes_password env_ok
           (example_setup (Some "secret")) "10.0.0.1" "apt-get update"
           empty_world).
  reflexivity.
Defined.

(** ** More about the key distribution *)

Section Distribution.

Variable E : env.
Variable self : AnsibleSetup.

Lemma distribute_ssh_key_with_password host w :
  truthy (ssh_password self) = true ->
  distribute_ssh_key E self host w =
  let p := sh E w (copy_id_command self host) in
  Outcome (Ret (returncode p =? 0)) (files_after p)
    (EvProc (Shell (copy_id_command self host)) (returncode p)
     :: if returncode p =? 0 then []
        else [EvLog ERROR ("Failed to copy SSH key to " +:+ host +:+ ": "
                           +:+ "Error: " +:+ stderr p)]).
Proof.
  intros Hpw. unfold distribute_ssh_key, try_except, bind, log_error, emit, ret.
  rewrite Hpw, run_command_shell_eq, completed_result_eq. cbn.
  by destruct (returncode _ =? 0).
Qed.

Lemma distribute_ssh_key_returns host w :
  exists b, value (distribute_ssh_key E self host w) = Ret b.
Proof.
  destruct (truthy (ssh_password self)) eqn:Hpw.
  - rewrite distribute_ssh_key_with_password by done. cbn. eauto.
  - rewrite distribute_ssh_key_no_password by done. cbn. eauto.
Qed.

Lemma distribute_all_returns hosts w :
  exists b, value (distribute_all E self hosts w) = Ret b.
Proof.
  revert w. induction hosts as [|h rest IH]; intros w; [by exists true|].
  cbn [distribute_all]. unfold bind.
  destruct (distribute_ssh_key_returns h w) as [b Hb].
  destruct (distribute_ssh_key E self h w) as [v fs evs]. cbn in Hb. subst v.
  destruct b; cbn -[distribute_all]; [|by exists false].
  match goal with
  | |- context [distribute_all E self rest ?w'] =>
      destruct (IH w') as [b' Hb'];
      destruct (distribute_all E self rest w') as [v' fs' evs']
  end.
  cbn in Hb'. subst v'. by exists b'.
Qed.


End Distribution.


(** ** More about the two files *)

Section Files.

Variable E : env.
Variable self : AnsibleSetup.

Lemma create_inventory_file_eq w :
  create_inventory_file E self w =
  match fs_write E w "inventory.yml" (yaml_dump E (inventory_data self)) with
  | Written =>
      Outcome (Ret true)
        (<["inventory.yml" := yaml_dump E (inventory_data self)]> (files w))
        [EvWrite "inventory.yml" (yaml_dump E (inventory_data self)) true]
  | OpenFailed msg =>
      Outcome (Ret false) (files w)
        [ EvWrite "inventory.yml" (yaml_dump E (inventory_data self)) false;
          EvLog ERROR ("Failed to create inventory file: " +:+ msg) ]
  | WriteFailed msg got =>
      Outcome (Ret false) (<["inventory.yml" := got]> (files w))
        [ EvWrite "inventory.yml" (yaml_dump E (inventory_data self)) false;
          EvLog ERROR ("Failed to create inventory file: " +:+ msg) ]
  end.
Proof.
  unfold create_inventory_file, try_except, bind, log_error, emit, ret.
  rewrite write_file_eq. by destruct (fs_write E w _ _).
Qed.

Lemma create_ansible_cfg_eq w :
  create_ansible_cfg E self w =
  match fs_write E w "ansible.cfg" (config_content self) with
  | Written =>
      Outcome (Ret true) (<["ansible.cfg" := config_content self]> (files w))
        [EvWrite "ansible.cfg" (config_content self) true]
  | OpenFailed msg =>
      Outcome (Ret false) (files w)
        [ EvWrite "ansible.cfg" (config_content self) false;
          EvLog ERROR ("Failed to create ansible.cfg: " +:+ msg) ]
  | WriteFailed msg got =>
      Outcome (Ret false) (<["ansible.cfg" := got]> (files w))
        [ EvWrite "ansible.cfg" (config_content self) false;
          EvLog ERROR ("Failed to create ansible.cfg: " +:+ msg) ]
  end.
Proof.
  unfold create_ansible_cfg, try_except, bind, log_error, emit, ret.
  rewrite write_file_eq. by destruct (fs_write E w _ _).
Qed.


End Files.


(** ** More about the coordinator *)

Lemma writes_app evs evs' : writes (evs ++ evs') = writes evs ++ writes evs'.
Proof. apply omap_app. Qed.

Lemma writes_shell_only evs : forallb shell_only evs = true -> writes evs = [].
Proof.
  induction evs as [|e evs IH]; [done|]. cbn [forallb]. intros H.
  apply andb_true_iff in H as [He Hevs]. destruct e; try discriminate He;
    by apply IH.
Qed.

Lemma writes_about_host host evs :
  forallb (about_host host) evs = true -> writes evs = [].
Proof.
  induction evs as [|e evs IH]; [done|]. cbn [forallb]. intros H.
  apply andb_true_iff in H as [He Hevs]. destruct e; try discriminate He;
    by apply IH.
Qed.

Section Coordinator.

Variable E : env.
Variable self : AnsibleSetup.

Lemma create_ssh_key_shell w :
  (exists b, value (create_ssh_key E self w) = Ret b) /\
  forallb shell_only (emitted (create_ssh_key E self w)) = true.
Proof.
  unfold create_ssh_key, bind, path_exists, log_info, log_error, emit, ret.
  cbn -[run_command]. destruct (bool_decide _); cbn -[run_command]; [eauto|].
  rewrite run_command_shell_eq, completed_result_eq. cbn.
  destruct (returncode _ =? 0); cbn; eauto.
Qed.

Lemma distribute_all_shell hosts w :
  forallb shell_only (emitted (distribute_all E self hosts w)) = true.
Proof.
  revert w. induction hosts as [|h rest IH]; intros w; [done|].
  cbn [distribute_all]. unfold bind.
  destruct (truthy (ssh_password self)) eqn:Hpw.
  - rewrite distribute_ssh_key_with_password by done. cbv zeta.
    destruct (returncode _ =? 0); cbn -[distribute_all]; [|done].
    match goal with
    | |- context [distribute_all E self rest ?w'] =>
        pose proof (IH w') as H;
        destruct (distribute_all E self rest w') as [v' fs' evs']
    end. done.
  - rewrite distribute_ssh_key_no_password by done. cbn -[distribute_all].
    match goal with
    | |- context [distribute_all E self rest ?w'] =>
        pose proof (IH w') as H;
        destruct (distribute_all E self rest w') as [v' fs' evs']
    end. done.
Qed.

Lemma verify_ansible_eq w :
  verify_ansible E w =
  match execvp E w ["ansible"; "--version"] with
  | Started p =>
      Outcome (Ret (returncode p =? 0)) (files_after p)
        [ EvProc (Argv ["ansible"; "--version"]) (returncode p);
          if returncode p =? 0
          then EvLog INFO "Ansible installation verified successfully"
          else EvLog ERROR "Ansible is not properly installed" ]
  | NotStarted msg =>
      Outcome (Raise msg) (files w) [EvNotStarted (Argv ["ansible"; "--version"])]
  end.
Proof.
  unfold verify_ansible, bind, log_info, log_error, emit, ret.
  rewrite run_command_argv_eq.
  change (split "ansible --version") with ["ansible"; "--version"].
  destruct (execvp E w _) as [p|msg]; [|done].
  rewrite completed_result_eq. cbn. by destruct (returncode p =? 0).
Qed.

(** The events of the pool are the events of its workers, worker by
    worker, and after them one line of the coordinator when it
    returns false. *)
Lemma setup_all_emitted hosts w :
  hosts <> [] ->
  exists done tail,
    done ≡ₚ hosts /\
    emitted (setup_all E self hosts w)
    = concat ((fun host => emitted (setup_node E self host w)) <$> done) ++ tail
    /\ (value (setup_all E self hosts w) = Ret true /\ tail = []
        \/ value (setup_all E self hosts w) = Ret false /\
           exists msg, tail = [EvLog ERROR msg])
    /\ disk (setup_all E self hosts w) = files w.
Proof.
  intros Hne. unfold setup_all.
  destruct hosts as [|h0 rest]; [done|]. set (hosts := h0 :: rest).
  change ((length hosts =? 0)%nat) with false. cbv iota.
  unfold bind, get_world, emit_all.
  cbn -[as_completed submit_all collect setup_node hosts].
  rewrite app_nil_r.
  destruct w as [fs h]. cbn [files history].
  set (done := as_completed E _ (submit_all E self hosts _)).
  exists (done.*1).
  assert (Hperm : done.*1 ≡ₚ hosts).
  { subst done. rewrite as_completed_perm. unfold submit_all.
    rewrite <- list_fmap_compose. by rewrite list_fmap_id. }
  assert (Hev : map (fun f : string * outcome bool => emitted f.2) done
                = (fun host => emitted (setup_node E self host (World fs h)))
                    <$> done.*1).
  { assert (Hall : Forall (fun f : string * outcome bool =>
                             f.2 = setup_node E self f.1 (World fs h)) done).
    { subst done. rewrite as_completed_perm. unfold submit_all.
      apply Forall_fmap. by apply Forall_true. }
    clear Hperm. induction Hall as [|[host o] l Ho _ IH]; [done|].
    cbn in Ho. subst o. cbn. by rewrite IH. }
  match goal with |- context [collect done ?w'] =>
    destruct (collect_spec done w') as [[_ Heq] | [_ (msg & Heq)]];
    rewrite Heq
  end; cbn [value emitted disk files]; rewrite Hev.
  - exists []. split; [done|]. split; [done|]. split; [by left|done].
  - exists [EvLog ERROR msg]. split; [done|]. split; [done|].
    split; [right; eauto|done].
Qed.

End Coordinator.

Section Run.

Variable E : env.
Variable self : AnsibleSetup.

(** Names the outcome of the phase the goal is waiting for, which
    returns and does not raise. *)
Ltac next_phase call returns :=
  match goal with
  | |- context [call ?w'] =>
      let b := fresh "b" in
      let Hb := fresh "Hb" in
      let v := fresh "v" in
      let fs := fresh "fs" in
      let evs := fresh "evs" in
      destruct (returns w') as [b Hb];
      destruct (call w') as [v fs evs];
      cbn in Hb; subst v; destruct b; run_step;
      rewrite ?app_nil_r; [|done]
  end.

Lemma create_ssh_key_returns w :
  exists b, value (create_ssh_key E self w) = Ret b.
Proof. apply create_ssh_key_shell. Qed.

Lemma setup_all_returns w :
  exists b, value (setup_all E self (all_hosts self) w) = Ret b.
Proof. by apply setup_all_failed. Qed.

Lemma create_inventory_file_returns w :
  exists b, value (create_inventory_file E self w) = Ret b.
Proof.
  rewrite create_inventory_file_eq. destruct (fs_write E w _ _); cbn; eauto.
Qed.

Lemma create_ansible_cfg_returns w :
  exists b, value (create_ansible_cfg E self w) = Ret b.
Proof.
  rewrite create_ansible_cfg_eq. destruct (fs_write E w _ _); cbn; eauto.
Qed.

(** The trace of [run] is the traces of its phases one after the
    other, cut after the first phase that does not pass. Only the last
    phase can raise; that is logged as [Setup failed]. *)
Lemma run_emitted w :
  let o_key := create_ssh_key E self w in
  let w1 := after w o_key in
  let o_copy := distribute_all E self (all_hosts self) w1 in
  let w2 := after w1 o_copy in
  let o_nodes := setup_all E self (all_hosts self) w2 in
  let w3 := after w2 o_nodes in
  let o_inv := create_inventory_file E self w3 in
  let w4 := after w3 o_inv in
  let o_cfg := create_ansible_cfg E self w4 in
  let w5 := after w4 o_cfg in
  let o_ver := verify_ansible E w5 in
  emitted (run E self w) =
    emitted o_key ++
    if negb (passed o_key) then [] else
    emitted o_copy ++
    if negb (passed o_copy) then [] else
    emitted o_nodes ++
    if negb (passed o_nodes) then [] else
    emitted o_inv ++
    if negb (passed o_inv) then [] else
    emitted o_cfg ++
    if negb (passed o_cfg) then [] else
    emitted o_ver ++
    match value o_ver with
    | Ret true => [EvLog INFO "Ansible setup completed successfully!"]
    | Ret false => []
    | Raise e => [EvLog ERROR ("Setup failed: " +:+ e)]
    end.
Proof.
  cbv zeta. unfold run, try_except, bind, after, passed, log_info, log_error,
    emit, ret.
  next_phase (create_ssh_key E self) create_ssh_key_returns.
  next_phase (distribute_all E self (all_hosts self))
    (distribute_all_returns E self (all_hosts self)).
  next_phase (setup_all E self (all_hosts self)) setup_all_returns.
  next_phase (create_inventory_file E self) create_inventory_file_returns.
  next_phase (create_ansible_cfg E self) create_ansible_cfg_returns.
  destruct (verify_ansible E _) as [[[|]|e] fs' evs']; cbn;
    by rewrite <- ?app_assoc.
Qed.

Lemma create_ssh_key_writes w :
  writes (emitted (create_ssh_key E self w)) = [].
Proof. apply writes_shell_only, create_ssh_key_shell. Qed.

Lemma distribute_all_writes w :
  writes (emitted (distribute_all E self (all_hosts self) w)) = [].
Proof. apply writes_shell_only, distribute_all_shell. Qed.

(** What the pool emits comes from the worker of one of the hosts, or
    is the coordinator's one line about a failure. *)
Lemma setup_all_events w e :
  In e (emitted (setup_all E self (all_hosts self) w)) ->
  (exists host, In host (all_hosts self) /\
                In e (emitted (setup_node E self host w)))
  \/ exists msg, e = EvLog ERROR msg.
Proof.
  destruct (setup_all_emitted E self (all_hosts self) w)
    as (fin & tail & Hperm & -> & Htail & _); [by unfold all_hosts|].
  intros [Hin|Hin]%List.in_app_or.
  - left. apply in_concat in Hin as (evs & Hevs & Hin).
    apply list_elem_of_In, list_elem_of_fmap in Hevs as (host & -> & Hhost).
    exists host. split; [|done]. apply list_elem_of_In. by rewrite <- Hperm.
  - right. destruct Htail as [[_ ->]|[_ [msg ->]]]; [done|].
    destruct Hin as [<-|[]]. by exists msg.
Qed.

Lemma setup_all_writes w :
  writes (emitted (setup_all E self (all_hosts self) w)) = [].
Proof.
  destruct (setup_all_emitted E self (all_hosts self) w)
    as (fin & tail & _ & -> & Htail & _); [by unfold all_hosts|].
  rewrite writes_app.
  assert (writes tail = []) as -> by (by destruct Htail as [[_ ->]|[_ [msg ->]]]).
  rewrite app_nil_r. induction fin as [|h l IH]; [done|].
  rewrite fmap_cons. cbn [concat].
  rewrite writes_app, IH, (writes_about_host h); [done|].
  apply setup_node_about_host.
Qed.

Lemma create_inventory_file_writes w :
  writes (emitted (create_inventory_file E self w))
  = [("inventory.yml", yaml_dump E (inventory_data self),
      passed (create_inventory_file E self w))].
Proof.
  rewrite create_inventory_file_eq. by destruct (fs_write E w _ _).
Qed.

Lemma create_ansible_cfg_writes_once w :
  writes (emitted (create_ansible_cfg E self w))
  = [("ansible.cfg", config_content self,
      passed (create_ansible_cfg E self w))].
Proof.
  rewrite create_ansible_cfg_eq. by destruct (fs_write E w _ _).
Qed.

Lemma verify_ansible_writes w : writes (emitted (verify_ansible E w)) = [].
Proof.
  rewrite verify_ansible_eq. destruct (execvp E w _) as [p|msg]; [|done].
  cbn. by destruct (returncode p =? 0).
Qed.

Lemma writes_if (b : bool) evs :
  writes (if b then [] else evs) = if b then [] else writes evs.
Proof. by destruct b. Qed.

Lemma create_inventory_file_first w :
  exists ok rest,
    emitted (create_inventory_file E self w)
    = EvWrite "inventory.yml" (yaml_dump E (inventory_data self)) ok :: rest.
Proof.
  rewrite create_inventory_file_eq. destruct (fs_write E w _ _); cbn; eauto.
Qed.

(** X8. The two files [run] opens for writing (the log file of the
    logging handler and what child processes such as [ssh-keygen]
    write are not counted). [run] attempts at most two writes:
    [inventory.yml] with the dump of the inventory, then, only if that
    write succeeded, [ansible.cfg] with the configuration text. It
    attempts none unless key generation, the copy of the key to every
    host and the configuration of every host all passed, and then the
    first attempt comes after everything these three phases did. A run
    that returns true has written both files. *)
Theorem run_writes w :
  let o_key := create_ssh_key E self w in
  let w1 := after w o_key in
  let o_copy := distribute_all E self (all_hosts self) w1 in
  let w2 := after w1 o_copy in
  let o_nodes := setup_all E self (all_hosts self) w2 in
  let ws := writes (emitted (run E self w)) in
  let inv ok := ("inventory.yml", yaml_dump E (inventory_data self), ok) in
  let cfg ok := ("ansible.cfg", config_content self, ok) in
  (ws = [] \/ ws = [inv false] \/ exists ok, ws = [inv true; cfg ok]) /\
  (ws <> [] ->
   passed o_key = true /\ passed o_copy = true /\ passed o_nodes = true /\
   exists ok later,
     emitted (run E self w)
     = emitted o_key ++ emitted o_copy ++ emitted o_nodes
         ++ EvWrite "inventory.yml" (yaml_dump E (inventory_data self)) ok
            :: later) /\
  writes (emitted o_key ++ emitted o_copy ++ emitted o_nodes) = [] /\
  (value (run E self w) = Ret true -> ws = [inv true; cfg true]).
Proof.
  cbv zeta. pose proof (run_emitted w) as He.
  pose proof (run_value E self w) as Hv. cbv zeta in He, Hv.
  split; [|split; [|split]].
  - rewrite He. clear He Hv.
    repeat rewrite ?writes_app, ?writes_if.
    rewrite create_ssh_key_writes, distribute_all_writes, setup_all_writes,
      create_inventory_file_writes, create_ansible_cfg_writes_once,
      verify_ansible_writes.
    repeat match goal with
           | |- context [passed ?o] => destruct (passed o)
           end;
      destruct (value _) as [[|]|?]; cbn; eauto 6.
  - rewrite He. clear He Hv. intros Hne.
    destruct (passed (create_ssh_key E self w)); cbn [negb] in *;
      [|exfalso; apply Hne; by rewrite writes_app, create_ssh_key_writes].
    destruct (passed (distribute_all E self (all_hosts self) _));
      cbn [negb] in *;
      [|exfalso; apply Hne;
        by rewrite !writes_app, create_ssh_key_writes, distribute_all_writes].
    destruct (passed (setup_all E self (all_hosts self) _));
      cbn [negb] in *;
      [|exfalso; apply Hne;
        by rewrite !writes_app, create_ssh_key_writes, distribute_all_writes,
             setup_all_writes].
    split; [done|]. split; [done|]. split; [done|].
    match goal with
    | |- context [emitted (create_inventory_file E self ?w') ++ _] =>
        destruct (create_inventory_file_first w') as (ok & rest & ->)
    end.
    by eexists _, _.
  - by rewrite !writes_app, create_ssh_key_writes, distribute_all_writes,
      setup_all_writes.
  - rewrite He, Hv. clear He Hv.
    repeat rewrite ?writes_app, ?writes_if.
    rewrite create_ssh_key_writes, distribute_all_writes, setup_all_writes,
      create_inventory_file_writes, create_ansible_cfg_writes_once,
      verify_ansible_writes.
    repeat match goal with
           | |- context [passed ?o] => destruct (passed o)
           end;
      destruct (value _) as [[|]|?]; cbn; done.
Qed.

Lemma errors_app evs evs' : errors (evs ++ evs') = errors evs ++ errors evs'.
Proof. apply omap_app. Qed.

Lemma run_commands_errors host cmds w :
  value (run_commands E self host cmds w) = Ret true <->
  errors (emitted (run_commands E self host cmds w)) = [].
Proof.
  revert w. induction cmds as [|c rest IH]; intros w; [done|].
  destruct (run_commands_cons E self host c rest w)
    as [(msg & ->) | (w' & ->)]; cbn [value emitted]; [done|].
  apply IH.
Qed.

Lemma setup_node_errors host w :
  value (setup_node E self host w) = Ret true <->
  errors (emitted (setup_node E self host w)) = [].
Proof.
  destruct (setup_node_trace E self host w)
    as [(w' & Hv & Hx) | [(_ & w' & Hv & Hx) | [(_ & e & Hv & Hx)
       | (_ & Hv & Hx)]]]; cbv zeta in Hv, Hx; rewrite Hv, Hx; try done.
  - rewrite (run_commands_errors host), !errors_app. cbn.
    by rewrite app_nil_r.
  - rewrite (run_commands_errors host), !errors_app. cbn.
    by rewrite app_nil_r.
Qed.

Lemma create_ssh_key_errors w :
  passed (create_ssh_key E self w) = true <->
  errors (emitted (create_ssh_key E self w)) = [].
Proof.
  unfold passed, create_ssh_key, bind, path_exists, log_info, log_error,
    emit, ret.
  cbn -[run_command]. destruct (bool_decide _); cbn -[run_command]; [done|].
  rewrite run_command_shell_eq, completed_result_eq. cbn.
  by destruct (returncode _ =? 0).
Qed.

Lemma distribute_all_errors hosts w :
  passed (distribute_all E self hosts w) = true <->
  errors (emitted (distribute_all E self hosts w)) = [].
Proof.
  destruct (truthy (ssh_password self)) eqn:Hpw;
    [|by rewrite distribute_all_no_password].
  revert w. induction hosts as [|h rest IH]; intros w; [done|].
  cbn [distribute_all]. unfold bind.
  rewrite distribute_ssh_key_with_password by done. cbv zeta.
  destruct (returncode _ =? 0); cbn -[distribute_all]; [|done].
  match goal with
  | |- context [distribute_all E self rest ?w'] =>
      pose proof (IH w') as H;
      destruct (distribute_all E self rest w') as [v' fs' evs']
  end. done.
Qed.

Lemma setup_all_errors w :
  passed (setup_all E self (all_hosts self) w) = true <->
  errors (emitted (setup_all E self (all_hosts self) w)) = [].
Proof.
  destruct (setup_all_emitted E self (all_hosts self) w)
    as (fin & tail & Hperm & Hx & [[Hv ->]|[Hv [msg ->]]] & _);
    [by unfold all_hosts| |]; unfold passed; rewrite Hv, Hx, errors_app.
  - split; [intros _|done]. rewrite app_nil_r.
    assert (Hall : forall host, host ∈ fin ->
              errors (emitted (setup_node E self host w)) = []).
    { intros host Hin. apply setup_node_errors.
      destruct (passed (setup_node E self host w)) eqn:Hp;
        [by apply passed_true|apply passed_false in Hp].
      destruct (setup_all_failed E self (all_hosts self) w) as [_ Hf];
        [by unfold all_hosts|].
      exfalso. apply (proj2 Hf); [|done].
      exists host. split; [by rewrite <- Hperm|done]. }
    clear Hperm Hx. induction fin as [|h l IH]; [done|].
    rewrite fmap_cons. cbn [concat]. rewrite errors_app, Hall, IH; [done| |].
    + intros host Hin. apply Hall. by apply list_elem_of_further.
    + apply list_elem_of_here.
  - split; [done|]. intros H. apply app_eq_nil in H as [_ H]. discriminate H.
Qed.

Lemma create_inventory_file_errors w :
  passed (create_inventory_file E self w) = true <->
  errors (emitted (create_inventory_file E self w)) = [].
Proof.
  rewrite create_inventory_file_eq. by destruct (fs_write E w _ _).
Qed.

Lemma create_ansible_cfg_errors w :
  passed (create_ansible_cfg E self w) = true <->
  errors (emitted (create_ansible_cfg E self w)) = [].
Proof.
  rewrite create_ansible_cfg_eq. by destruct (fs_write E w _ _).
Qed.

Lemma errors_if (b : bool) evs :
  errors (if b then [] else evs) = if b then [] else errors evs.
Proof. by destruct b. Qed.

(** Settles the phase the goal is waiting for: when it failed it left
    an ERROR line, and when it passed it left none. *)
Ltac error_phase call lem :=
  match goal with
  | |- context [passed (call ?w')] =>
      let H := fresh "H" in
      let Hx := fresh "Hx" in
      pose proof (lem w') as H;
      destruct (passed (call w'));
      [ rewrite (proj1 H eq_refl); cbn [negb andb app]
      | cbn [negb andb app]; split; [discriminate|];
        intros Hx; apply app_eq_nil in Hx as [Hx _];
        apply H in Hx; discriminate Hx ]
  end.

(** X9. The log agrees with the result: [run] returns true exactly
    when it logged nothing at level ERROR. Every way a phase can fail
    leaves an ERROR line (also a program that cannot be started, which
    is logged as [Setup failed]), and a phase that passes leaves none. *)
Theorem run_true_iff_no_error_logged w :
  value (run E self w) = Ret true <-> errors (emitted (run E self w)) = [].
Proof.
  pose proof (run_emitted w) as He. pose proof (run_value E self w) as Hv.
  cbv zeta in He, Hv. rewrite He, Hv. clear He Hv.
  repeat rewrite ?errors_app, ?errors_if.
  error_phase (create_ssh_key E self) create_ssh_key_errors.
  error_phase (distribute_all E self (all_hosts self))
    (distribute_all_errors (all_hosts self)).
  error_phase (setup_all E self (all_hosts self)) setup_all_errors.
  error_phase (create_inventory_file E self) create_inventory_file_errors.
  error_phase (create_ansible_cfg E self) create_ansible_cfg_errors.
  unfold passed. rewrite verify_ansible_eq.
  destruct (execvp E _ _) as [p|msg]; cbn; [|done].
  by destruct (returncode p =? 0).
Qed.

Lemma forallb_not_in (p : event -> bool) evs e :
  forallb p evs = true -> p e = false -> ~ In e evs.
Proof.
  intros Hall He Hin. rewrite forallb_forall in Hall.
  apply Hall in Hin. congruence.
Qed.

Lemma create_inventory_file_only w :
  forallb file_only (emitted (create_inventory_file E self w)) = true.
Proof.
  rewrite create_inventory_file_eq. by destruct (fs_write E w _ _).
Qed.

Lemma create_ansible_cfg_only w :
  forallb file_only (emitted (create_ansible_cfg E self w)) = true.
Proof.
  rewrite create_ansible_cfg_eq. by destruct (fs_write E w _ _).
Qed.

(** The logins of one worker: to its host, as the configured user, with
    the configured key or, when one is set, the configured password. *)
Lemma setup_node_logins host w h u a ok :
  In (EvConnect h u a ok) (emitted (setup_node E self host w)) ->
  h = host /\ u = ssh_user self /\
  (a = KeyFile (ssh_key_path self) \/
   truthy (ssh_password self) = true /\
   a = Password (text (ssh_password self))).
Proof.
  destruct (setup_node_trace E self host w)
    as [(w' & _ & Hx) | [(Hpw & w' & _ & Hx) | [(Hpw & e & _ & Hx)
       | (Hpw & _ & Hx)]]]; cbv zeta in Hx; rewrite Hx; cbn [app].
  - intros [H|[H|H]]; try discriminate H.
    + injection H as <- <- <- <-. eauto.
    + apply List.in_app_or in H; destruct H as [H|[H|[]]]; try discriminate H.
      by apply run_commands_no_connect in H.
  - intros [H|[H|[H|H]]]; try discriminate H.
    + injection H as <- <- <- <-. eauto.
    + injection H as <- <- <- <-. eauto.
    + apply List.in_app_or in H; destruct H as [H|[H|[]]]; try discriminate H.
      by apply run_commands_no_connect in H.
  - intros [H|[H|[H|[H|[H|[]]]]]]; try discriminate H;
      injection H as <- <- <- <-; eauto.
  - intros [H|[H|[H|[H|[]]]]]; try discriminate H.
    injection H as <- <- <- <-. eauto.
Qed.

(** What [verify_ansible] can emit. *)
Lemma verify_ansible_events w e :
  In e (emitted (verify_ansible E w)) ->
  (exists rc, e = EvProc (Argv ["ansible"; "--version"]) rc)
  \/ (exists lvl msg, e = EvLog lvl msg)
  \/ (e = EvNotStarted (Argv ["ansible"; "--version"]) /\
      exists msg, value (verify_ansible E w) = Raise msg).
Proof.
  rewrite verify_ansible_eq. destruct (execvp E w _) as [p|msg]; cbn.
  - intros [<-|[<-|[]]]; [eauto|]. destruct (returncode p =? 0); eauto.
  - intros [<-|[]]. eauto.
Qed.

(** Sets aside a phase that cannot have emitted the event in [Hin],
    and moves on if the phase passed. *)
Ltac not_this_phase Hin call lem :=
  match type of Hin with
  | In _ (emitted (call ?w') ++ _) =>
      apply List.in_app_or in Hin as [Hin|Hin];
      [ exfalso; revert Hin; by apply forallb_not_in with (1 := lem w')
      | destruct (passed (call w')) eqn:?; cbn [negb] in Hin; [|done] ]
  end.

(** X10. Where [run] logs in. Every SSH login of a run goes to one of
    the listed hosts, as the configured user, with the configured key
    or the configured password; and none is attempted unless the key
    pair is there and the key was copied to every host (when a password
    is set). *)
Theorem run_logins w h u a ok :
  In (EvConnect h u a ok) (emitted (run E self w)) ->
  In h (all_hosts self) /\ u = ssh_user self /\
  (a = KeyFile (ssh_key_path self) \/
   truthy (ssh_password self) = true /\
   a = Password (text (ssh_password self))) /\
  passed (create_ssh_key E self w) = true /\
  passed (distribute_all E self (all_hosts self)
            (after w (create_ssh_key E self w))) = true.
Proof.
  intros Hin. pose proof (run_emitted w) as He. cbv zeta in He.
  rewrite He in Hin. clear He.
  not_this_phase Hin (create_ssh_key E self) (fun w' => proj2 (create_ssh_key_shell E self w')).
  not_this_phase Hin (distribute_all E self (all_hosts self))
    (distribute_all_shell E self (all_hosts self)).
  apply List.in_app_or in Hin as [Hin|Hin].
  { apply setup_all_events in Hin as [(host & Hhost & Hin)|[msg Hd]];
      [|discriminate Hd].
    apply setup_node_logins in Hin as (-> & -> & Ha). done. }
  exfalso.
  match type of Hin with
  | context [passed (setup_all E self (all_hosts self) ?w')] =>
      destruct (passed (setup_all E self (all_hosts self) w'));
      cbn [negb] in Hin; [|done]
  end.
  not_this_phase Hin (create_inventory_file E self) create_inventory_file_only.
  not_this_phase Hin (create_ansible_cfg E self) create_ansible_cfg_only.
  apply List.in_app_or in Hin as [Hin|Hin].
  - apply verify_ansible_events in Hin
      as [[rc H]|[(lvl & msg & H)|[H _]]]; discriminate H.
  - destruct (value (verify_ansible E _)) as [[|]|e];
      destruct Hin as [H|[]] || destruct Hin; discriminate H.
Qed.

(** X11. A program that cannot be started. The only command [run]
    starts without a shell is [ansible --version], at the very end.
    When it cannot be started, [subprocess.run] raises; [run] catches
    that, returns false, and its last line is [Setup failed] with the
    text of the exception, at level ERROR. *)
Theorem run_without_ansible w c :
  In (EvNotStarted c) (emitted (run E self w)) ->
  c = Argv ["ansible"; "--version"] /\
  value (run E self w) = Ret false /\
  exists msg,
    last (emitted (run E self w))
    = Some (EvLog ERROR ("Setup failed: " +:+ msg)).
Proof.
  intros Hin. pose proof (run_emitted w) as He.
  pose proof (run_value E self w) as Hv. cbv zeta in He, Hv.
  rewrite He in Hin. rewrite He, Hv. clear He Hv.
  not_this_phase Hin (create_ssh_key E self)
    (fun w' => proj2 (create_ssh_key_shell E self w')).
  not_this_phase Hin (distribute_all E self (all_hosts self))
    (distribute_all_shell E self (all_hosts self)).
  apply List.in_app_or in Hin as [Hin|Hin].
  { exfalso. apply setup_all_events in Hin as [(host & _ & Hin)|[msg Hd]];
      [|discriminate Hd].
    revert Hin. by apply forallb_not_in
      with (1 := setup_node_about_host E self host _). }
  match type of Hin with
  | context [passed (setup_all E self (all_hosts self) ?w')] =>
      destruct (passed (setup_all E self (all_hosts self) w'));
      cbn [negb] in Hin; [|done]
  end.
  not_this_phase Hin (create_inventory_file E self) create_inventory_file_only.
  not_this_phase Hin (create_ansible_cfg E self) create_ansible_cfg_only.
  cbn [negb andb].
  apply List.in_app_or in Hin as [Hin|Hin].
  - apply verify_ansible_events in Hin
      as [[rc H]|[(lvl & msg & H)|[H [msg Hv]]]]; try discriminate H.
    injection H as ->. unfold passed at 1. rewrite Hv.
    split; [done|]. split; [done|]. exists msg.
    by rewrite !app_assoc, last_snoc.
  - exfalso. destruct (value (verify_ansible E _)) as [[|]|e];
      destruct Hin as [H|[]] || destruct Hin; discriminate H.
Qed.

End Run.

Lemma run_writes_witness :
  writes (emitted (run env_ok (example_setup None) empty_world))
  = [ ("inventory.yml", "all: ...", true);
      ("ansible.cfg", config_content (example_setup None), true) ] /\
  passed (create_ssh_key env_disk_full (example_setup None) empty_world)
  = true.
Proof.
  split.
  - apply (run_writes env_ok (example_setup None) empty_world).
    vm_compute. reflexivity.
  - apply (run_writes env_disk_full (example_setup None) empty_world).
    vm_compute. discriminate.
Defined.

Lemma run_logins_witness :
  In "10.0.0.2" (all_hosts (example_setup (Some "secret"))) /\
  passed (distribute_all env_password_only (example_setup (Some "secret"))
            (all_hosts (example_setup (Some "secret")))
            (after empty_world
               (create_ssh_key env_password_only
                  (example_setup (Some "secret")) empty_world))) = true.
Proof.
  destruct (run_logins env_password_only (example_setup (Some "secret"))
              empty_world "10.0.0.2" "ubuntu" (Password "secret") true)
    as (Hin & _ & _ & _ & Hcopy); [|by split].
  find_event.
Defined.

Lemma run_without_ansible_witness :
  value (run env_no_ansible (example_setup None) empty_world) = Ret false /\
  exists msg,
    last (emitted (run env_no_ansible (example_setup None) empty_world))
    = Some (EvLog ERROR ("Setup failed: " +:+ msg)).
Proof.
  apply (run_without_ansible env_no_ansible (example_setup None)
           empty_world (Argv ["ansible"; "--version"])).
  find_event.
Defined.

(** ** More about the verifier *)

Lemma procs_app evs evs' : procs (evs ++ evs') = procs evs ++ procs evs'.
Proof. apply omap_app. Qed.

Lemma procs_log lvl msg evs : procs (EvLog lvl msg :: evs) = procs evs.
Proof. reflexivity. Qed.

(** A trace of shell commands and log lines. *)
Lemma shell_only_readings evs :
  forallb shell_only evs = true ->
  started evs = (procs evs).*1 /\
  (forall c, In c (started evs) -> exists command, c = Shell command) /\
  writes evs = [] /\ printed evs = [] /\
  (forall h u a ok, ~ In (EvConnect h u a ok) evs) /\
  (forall h c ok, ~ In (EvExec h c ok) evs).
Proof.
  induction evs as [|e evs IH]; intros Hall.
  { repeat split; try done; intros; by intros []. }
  cbn [forallb] in Hall. apply andb_true_iff in Hall as [He Hall].
  destruct (IH Hall) as (Hn & Hs & Hw & Hp & Hc & Hx).
  destruct e as [[c|args] rc| | | | | | |]; try discriminate He.
  - repeat split; try done.
    + unfold started, procs in *. cbn. by rewrite Hn.
    + intros c' [<-|Hin]; [by eexists|]. by apply Hs.
    + intros ? ? ? ? [H|H]; [discriminate H|]. by eapply Hc.
    + intros ? ? ? [H|H]; [discriminate H|]. by eapply Hx.
  - repeat split; try done.
    + intros ? ? ? ? [H|H]; [discriminate H|]. by eapply Hc.
    + intros ? ? ? [H|H]; [discriminate H|]. by eapply Hx.
Qed.

Section Verifier.

Variable E : env.
Variable self : AnsibleVerification.

Lemma run_checks_certifies checks : certifies (run_checks E checks) checks.*1.
Proof.
  intros w. revert w. induction checks as [|[c d] rest IH]; intros w.
  - repeat split; by eauto.
  - destruct (run_checks_cons E c d rest w)
      as (p & [[Hrc ->] | [Hrc (w' & ->)]]); cbn [value emitted].
    + split; [by exists false|]. split; [done|]. split; [cbn; lia|].
      split; [done|]. intros H. cbn in H. congruence.
    + destruct (IH w') as (Hv & Hall & Hlen & Hiff).
      split; [done|]. split; [done|]. split; [unfold procs in *; cbn; lia|].
      rewrite Hiff. unfold procs. cbn. split; [by intros ->|]. by intros [= ->].
Qed.

Lemma verify_inventory_certifies :
  certifies (verify_inventory E self)
    ["ansible-inventory --list -i " +:+ inventory_path self].
Proof.
  intros w. unfold verify_inventory, bind, log_info, log_error, emit, ret,
    path_exists. simpl.
  destruct (bool_decide _); simpl.
  - rewrite run_ansible_command_eq, completed_result_eq. simpl.
    destruct (returncode _ =? 0) eqn:Hrc; simpl.
    + apply Z.eqb_eq in Hrc. rewrite Hrc. repeat split; by eauto.
    + apply Z.eqb_neq in Hrc. repeat split; eauto; try done.
      intros [= H]. done.
  - repeat split; eauto; done.
Qed.

(** The three probes have one shape: a header, one command, one line
    for its result. *)
Ltac probe_certifies probe :=
  let Hrc := fresh "Hrc" in
  intros w; unfold probe, bind, log_info, log_error, emit, ret; simpl;
  rewrite run_ansible_command_eq, completed_result_eq; simpl;
  destruct (returncode _ =? 0) eqn:Hrc; simpl;
  [ apply Z.eqb_eq in Hrc; rewrite Hrc; repeat split; by eauto
  | apply Z.eqb_neq in Hrc; repeat split; eauto; try done;
    intros [= ?]; done ].

Lemma test_connectivity_certifies :
  certifies (test_connectivity E self)
    ["ansible all -i " +:+ inventory_path self +:+ " -m ping"].
Proof. probe_certifies test_connectivity. Qed.

Lemma verify_sudo_access_certifies :
  certifies (verify_sudo_access E self)
    ["ansible all -i " +:+ inventory_path self +:+ " -m shell -a "
     +:+ dq +:+ "sudo -n true" +:+ dq +:+ " -b"].
Proof. probe_certifies verify_sudo_access. Qed.

Lemma verify_python_certifies :
  certifies (verify_python E self)
    ["ansible all -i " +:+ inventory_path self
     +:+ " -m shell -a 'python3 --version'"].
Proof. probe_certifies verify_python. Qed.

(** The loop of [run_verification] vouches for the commands of all its
    checks when it starts with [all_passed = True]. *)
Lemma run_all_certifies checks cmds :
  Forall2 (fun c l => certifies c.1 l) checks cmds ->
  forall acc w,
    (exists b, value (run_all checks acc w) = Ret b) /\
    forallb shell_only (emitted (run_all checks acc w)) = true /\
    (length (procs (emitted (run_all checks acc w))) <= length (concat cmds))%nat /\
    (value (run_all checks acc w) = Ret true <->
     acc = true /\
     procs (emitted (run_all checks acc w))
     = (fun c => (Shell c, 0)) <$> concat cmds).
Proof.
  induction 1 as [|[f d] l rest cmds Hf _ IH]; intros acc w.
  - cbn. split; [by exists acc|]. split; [done|]. split; [done|].
    split; [by intros [= ->]|by intros [-> _]].
  - cbn [fst] in Hf. cbn [run_all concat].
    unfold bind, log_info, log_error, emit, ret. cbn -[run_all procs].
    match goal with |- context [f ?w'] =>
      destruct (Hf w') as ([b Hb] & Hall & Hlen & Hiff)
    end.
    destruct (f _) as [v fs evs]. cbn [value emitted] in *. subst v.
    rewrite fmap_app, length_app.
    destruct b; cbn -[run_all procs];
      match goal with |- context [run_all rest ?acc' ?w'] =>
        destruct (IH acc' w') as (Hv' & Hall' & Hlen' & Hiff');
        destruct (run_all rest acc' w') as [v' fs' evs']
      end; cbn [value emitted] in *;
      rewrite procs_log, procs_app, procs_log;
      cbn [forallb shell_only]; rewrite forallb_app; cbn [forallb shell_only];
      rewrite Hall, Hall'.
    + split; [done|]. split; [done|]. split; [rewrite length_app; lia|].
      rewrite Hiff'. destruct Hiff as [Hiff _]. rewrite (Hiff eq_refl).
      split; [by intros [-> ->]|]. by intros [-> ->%app_inv_head].
    + split; [done|]. split; [done|]. split; [rewrite length_app; lia|].
      rewrite Hiff'. split; [by intros [? _]|]. intros [_ Heq]. exfalso.
      apply app_inj_1 in Heq as [Heq _].
      * by apply Hiff in Heq.
      * apply (f_equal length) in Heq.
        rewrite !length_app, !length_fmap in Heq. rewrite length_fmap. lia.
Qed.

Lemma run_verification_certifies :
  certifies (run_verification E self)
    [ "ansible --version";
      "ansible-playbook --version";
      "ansible-galaxy --version";
      "ansible-inventory --list -i " +:+ inventory_path self;
      "ansible all -i " +:+ inventory_path self +:+ " -m ping";
      "ansible all -i " +:+ inventory_path self +:+ " -m shell -a "
        +:+ dq +:+ "sudo -n true" +:+ dq +:+ " -b";
      "ansible all -i " +:+ inventory_path self
        +:+ " -m shell -a 'python3 --version'" ].
Proof.
  intros w.
  destruct (run_all_certifies (verification_checks E self)
              [ installation_checks.*1;
                ["ansible-inventory --list -i " +:+ inventory_path self];
                ["ansible all -i " +:+ inventory_path self +:+ " -m ping"];
                ["ansible all -i " +:+ inventory_path self +:+ " -m shell -a "
                 +:+ dq +:+ "sudo -n true" +:+ dq +:+ " -b"];
                ["ansible all -i " +:+ inventory_path self
                 +:+ " -m shell -a 'python3 --version'"] ])
    with (acc := true) (w := w) as (Hv & Hall & Hlen & Hiff).
  { unfold verification_checks.
    repeat (apply List.Forall2_cons; [cbn [fst]|]); [..|apply List.Forall2_nil].
    - apply run_checks_certifies.
    - apply verify_inventory_certifies.
    - apply test_connectivity_certifies.
    - apply verify_sudo_access_certifies.
    - apply verify_python_certifies. }
  split; [done|]. split; [done|]. split; [done|].
  rewrite Hiff. cbn [concat]. split; [by intros [_ ?]|done].
Qed.

(** X12. What a passing verification means. [run_verification] returns
    true exactly when it ran these seven commands, in this order, and
    every one of them ended with status 0: the three version checks,
    the inventory listing, the ping, the sudo probe and the interpreter
    probe. In particular it is false when the inventory file is missing
    (the listing is then not run) and when a version check fails (the
    later version checks are then not run). *)
Theorem run_verification_true_iff_commands_succeed w :
  let o := run_verification E self w in
  let i := inventory_path self in
  value o = Ret true <->
  procs (emitted o) =
    [ (Shell "ansible --version", 0);
      (Shell "ansible-playbook --version", 0);
      (Shell "ansible-galaxy --version", 0);
      (Shell ("ansible-inventory --list -i " +:+ i), 0);
      (Shell ("ansible all -i " +:+ i +:+ " -m ping"), 0);
      (Shell ("ansible all -i " +:+ i +:+ " -m shell -a "
              +:+ dq +:+ "sudo -n true" +:+ dq +:+ " -b"), 0);
      (Shell ("ansible all -i " +:+ i
              +:+ " -m shell -a 'python3 --version'"), 0) ].
Proof. apply run_verification_certifies. Qed.

(** X13. The verifier works through the shell only: every process it
    starts is started as a shell command, there are at most seven of
    them, and it opens no SSH session and sends no remote command of
    its own, writes no file with [open] and prints nothing. *)
Theorem run_verification_shell_only w :
  let evs := emitted (run_verification E self w) in
  (length (started evs) <= 7)%nat /\
  (forall c, In c (started evs) -> exists command, c = Shell command) /\
  writes evs = [] /\ printed evs = [] /\
  (forall h u a ok, ~ In (EvConnect h u a ok) evs) /\
  (forall h c ok, ~ In (EvExec h c ok) evs).
Proof.
  cbv zeta. destruct (run_verification_certifies w) as (Hv & Hall & Hlen & _).
  destruct (shell_only_readings _ Hall) as (Hs & Hsh & Hrest).
  split; [|done].
  rewrite Hs, length_fmap. exact Hlen.
Qed.

End Verifier.

(** ** More about the pool *)

Lemma execs_about_host h host evs :
  forallb (about_host h) evs = true -> h <> host -> execs host evs = [].
Proof.
  intros Hall Hne. induction evs as [|e evs IH]; [done|].
  cbn [forallb] in Hall. apply andb_true_iff in Hall as [He Hall].
  rewrite (execs_cons host e evs), IH, app_nil_r by done.
  destruct e; try done. cbn in He. apply String.eqb_eq in He. subst.
  unfold execs. cbn. apply String.eqb_neq in Hne. by rewrite Hne.
Qed.

Section Pool.

Variable E : env.
Variable self : AnsibleSetup.

(** The commands sent to [host] by the workers of other hosts: none. *)
Lemma execs_other_workers host w l :
  host ∉ l ->
  execs host (concat ((fun h => emitted (setup_node E self h w)) <$> l)) = [].
Proof.
  induction l as [|h l IH]; [done|]. intros Hin.
  apply not_elem_of_cons in Hin as [Hne Hin].
  rewrite fmap_cons. cbn [concat]. rewrite execs_app, IH by done.
  rewrite (execs_about_host h host (emitted (setup_node E self h w)));
    [done| |done].
  apply setup_node_about_host.
Qed.


Lemma setup_all_execs hosts host w :
  hosts <> [] ->
  exists fin,
    fin ≡ₚ hosts /\
    execs host (emitted (setup_all E self hosts w))
    = execs host (concat ((fun h => emitted (setup_node E self h w)) <$> fin)).
Proof.
  intros Hne.
  destruct (setup_all_emitted E self hosts w Hne)
    as (fin & tail & Hperm & -> & Htail & _).
  exists fin. split; [done|]. rewrite execs_app.
  destruct Htail as [[_ ->]|[_ [msg ->]]]; by rewrite app_nil_r.
Qed.


(** X15. No worker is cancelled. When the hosts are distinct, every
    listed host is sent by the pool exactly what [setup_node] sends it
    from the world in which the pool was entered, whatever the workers
    of the other hosts return and in whatever order they finish. *)
Theorem setup_all_runs_every_worker hosts host w :
  NoDup hosts -> host ∈ hosts ->
  execs host (emitted (setup_all E self hosts w))
  = execs host (emitted (setup_node E self host w)).
Proof.
  intros Hnd Hin.
  destruct (setup_all_execs hosts host w) as (fin & Hperm & ->);
    [by intros ->; apply not_elem_of_nil in Hin|].
  rewrite <- Hperm in Hnd, Hin. clear Hperm.
  induction Hnd as [|h l Hh Hnd IH]; [by apply not_elem_of_nil in Hin|].
  rewrite fmap_cons. cbn [concat]. rewrite execs_app.
  destruct (decide (h = host)) as [->|Hne].
  - by rewrite execs_other_workers, app_nil_r.
  - apply elem_of_cons in Hin as [->|Hin]; [done|].
    rewrite IH by done.
    rewrite (execs_about_host h host (emitted (setup_node E self h w)));
      [done| |done].
    apply setup_node_about_host.
Qed.

End Pool.

Lemma setup_all_runs_every_worker_witness :
  execs "10.0.0.3"
    (emitted (setup_all env_install_fails (example_setup None)
                (all_hosts (example_setup None)) empty_world))
  = [ ("sudo apt-get update", true);
      ("sudo apt-get install -y python3-pip sshpass", false) ].
Proof.
  rewrite (setup_all_runs_every_worker env_install_fails (example_setup None)
             (all_hosts (example_setup None)) "10.0.0.3" empty_world).
  - vm_compute. reflexivity.
  - apply (bool_decide_unpack _). vm_compute. reflexivity.
  - apply (bool_decide_unpack _). vm_compute. reflexivity.
Defined.

(** ** The password *)

(** X16. An empty password is no password. [--password ''] gives the
    script the empty string, which every test of the password
    ([if self.ssh_password]) takes for false: the key is not copied,
    no login by password is tried, no command is rewritten for [sudo
    -S], and the configuration file gets an empty [become_password]. The
    whole script behaves as without [--password]. *)
Theorem empty_password_is_no_password E master workers user w :
  main E {| arg_master := master; arg_workers := workers; arg_user := user;
            arg_password := Some EmptyString |} w
  = main E {| arg_master := master; arg_workers := workers; arg_user := user;
              arg_password := None |} w.
Proof. reflexivity. Qed.
